(** * xray-grpc: gRPC unary interceptors for AWS X-Ray

    A shallow embedding of [main.go] (package [xray_grpc]) and the
    properties of its three exported functions:

    - [GetDefaultHostFromTargetFunc], the pure helper deriving a host name
      from a connection target;
    - [NewGrpcXrayUnaryClientInterceptor];
    - [NewGrpcXrayUnaryServerInterceptor].

    Go strings are byte sequences and are modelled by [string]; Go [int]
    values by [Z]; a panic by the [Panic] outcome of a computation. *)

From Stdlib Require Import ZArith Lia Bool Ascii.
From Stdlib Require String.
From stdpp Require Import base option list gmap strings.

Local Open Scope Z_scope.

(** ** Outcomes: normal return or panic *)

(** The run-time panics the modelled code can raise. *)
Inductive PanicValue : Type :=
| BoundsError (index : Z) (length : Z)  (* slice bounds / index out of range *)
| OtherPanic (msg : string).

Inductive Outcome (A : Type) : Type :=
| Ret (a : A)
| Panic (p : PanicValue).
Arguments Ret {A} a.
Arguments Panic {A} p.

Definition returns {A} (o : Outcome A) : Prop := exists a, o = Ret a.

(** ** The parts of Go's [strings], [unicode/utf8] and [fmt] the program calls *)

Module GoStrings.

(** [len(s)] *)
Definition len (s : string) : Z := Z.of_nat (String.length s).

(** [s[:n]] and [s[n:]] on a byte count already known to be in range. *)
Fixpoint str_take (n : nat) (s : string) : string :=
  match n, s with
  | S n', String a s' => String a (str_take n' s')
  | _, _ => EmptyString
  end.

Fixpoint str_drop (n : nat) (s : string) : string :=
  match n, s with
  | S n', String _ s' => str_drop n' s'
  | _, _ => s
  end.

(** The slice expression [s[lo:hi]]: it panics unless
    [0 <= lo <= hi <= len(s)]. *)
Definition slice (s : string) (lo hi : Z) : Outcome string :=
  if (0 <=? lo) && (lo <=? hi) && (hi <=? len s)
  then Ret (str_take (Z.to_nat (hi - lo)) (str_drop (Z.to_nat lo) s))
  else Panic (BoundsError (if (0 <=? hi) && (hi <=? len s) then lo else hi)
                          (len s)).

(** [strings.IndexByte(s, c)]: the index of the first byte equal to [c],
    or [-1]. The loop over [i] is the recursion, [i] its counter. *)
Fixpoint indexByteFrom (s : string) (c : ascii) (i : Z) : Z :=
  match s with
  | EmptyString => -1
  | String a s' => if Ascii.eqb a c then i else indexByteFrom s' c (i + 1)
  end.

Definition IndexByte (s : string) (c : ascii) : Z := indexByteFrom s c 0.

(** [strings.HasPrefix(s, prefix)] *)
Definition HasPrefix (s pre : string) : bool := String.prefix pre s.

(** [strings.Index(s, substr)]: the index of the first instance of
    [substr] in [s], or [-1]. *)
Fixpoint indexFrom (s substr : string) (i : Z) : Z :=
  if HasPrefix s substr then i
  else match s with
       | EmptyString => -1
       | String _ s' => indexFrom s' substr (i + 1)
       end.

Definition Index (s substr : string) : Z := indexFrom s substr 0.

(** [utf8.DecodeRuneInString]: only the width of the first encoded rune
    is needed (1 for an invalid or truncated encoding, 0 for [""]). *)
Definition byteIn (lo hi : N) (b : ascii) : bool :=
  ((lo <=? N_of_ascii b) && (N_of_ascii b <=? hi))%N.

Definition DecodeRuneSize (s : string) : nat :=
  match s with
  | EmptyString => 0%nat
  | String s0 t =>
      let b := N_of_ascii s0 in
      if (b <? 0xC2)%N then 1%nat
      else if (b <? 0xE0)%N then
        match t with
        | String s1 _ => if byteIn 0x80 0xBF s1 then 2%nat else 1%nat
        | _ => 1%nat
        end
      else if (b <? 0xF0)%N then
        let lo := if (b =? 0xE0)%N then 0xA0%N else 0x80%N in
        let hi := if (b =? 0xED)%N then 0x9F%N else 0xBF%N in
        match t with
        | String s1 (String s2 _) =>
            if byteIn lo hi s1 && byteIn 0x80 0xBF s2 then 3%nat else 1%nat
        | _ => 1%nat
        end
      else if (b <? 0xF5)%N then
        let lo := if (b =? 0xF0)%N then 0x90%N else 0x80%N in
        let hi := if (b =? 0xF4)%N then 0x8F%N else 0xBF%N in
        match t with
        | String s1 (String s2 (String s3 _)) =>
            if byteIn lo hi s1 && byteIn 0x80 0xBF s2 && byteIn 0x80 0xBF s3
            then 4%nat else 1%nat
        | _ => 1%nat
        end
      else 1%nat
  end.

(** [utf8.RuneCountInString]; [fuel] bounds the number of runes. *)
Fixpoint runeCount (fuel : nat) (s : string) : Z :=
  match fuel, s with
  | S fuel', String _ _ => 1 + runeCount fuel' (str_drop (DecodeRuneSize s) s)
  | _, _ => 0
  end.

Definition RuneCountInString (s : string) : Z := runeCount (String.length s) s.

(** [bytealg.CountString(s, c)] *)
Fixpoint CountString (s : string) (c : ascii) : Z :=
  match s with
  | EmptyString => 0
  | String a s' => (if Ascii.eqb a c then 1 else 0) + CountString s' c
  end.

(** The loop of [strings.Count] for a pattern of two bytes or more:
    find the next instance, count it, continue behind it. Every round
    consumes at least one byte, so [fuel] above [len(s)] is never
    exhausted. *)
Fixpoint countLoop (fuel : nat) (s substr : string) : Z :=
  match fuel with
  | O => 0
  | S fuel' =>
      let i := Index s substr in
      if i =? -1 then 0
      else 1 + countLoop fuel'
                 (str_drop (Z.to_nat (i + len substr)) s) substr
  end.

(** [strings.Count(s, substr)]: the number of non-overlapping instances. *)
Definition Count (s substr : string) : Z :=
  match substr with
  | EmptyString => RuneCountInString s + 1
  | String c EmptyString => CountString s c
  | _ => countLoop (S (String.length s)) s substr
  end.

(** The loop of [strings.Replace]: [s] is the unread rest
    [s[start:]], [first] tells the first round ([i == 0]), the result is
    what the builder receives from here on. *)
Fixpoint replaceLoop (n : nat) (first : bool) (s old new : string) : string :=
  match n with
  | O => s
  | S n' =>
      let j := match old with
               | EmptyString => if first then 0%nat else DecodeRuneSize s
               | _ => Z.to_nat (Index s old)
               end in
      str_take j s +:+ new +:+
        replaceLoop n' false (str_drop (j + String.length old) s) old new
  end.

(** [strings.Replace(s, old, new, n)] *)
Definition Replace (s old new : string) (n : Z) : string :=
  if String.eqb old new || (n =? 0) then s
  else
    let m := Count s old in
    if m =? 0 then s
    else
      let n := if (n <? 0) || (m <? n) then m else n in
      replaceLoop (Z.to_nat n) true s old new.

(** [strings.ReplaceAll(s, old, new)] *)
Definition ReplaceAll (s old new : string) : string := Replace s old new (-1).

(** [fmt.Sprintf(".%s", a)] *)
Definition Sprintf_dot_s (a : string) : string := "." +:+ a.

End GoStrings.

Import GoStrings.

(** ** [GetDefaultHostFromTargetFunc] *)

Definition GetDefaultHostFromTargetFunc (namespace : string)
  : string -> Outcome string :=
  fun target =>
    match slice target 0 (IndexByte target ":") with
    | Panic p => Panic p
    | Ret withoutPort =>
        Ret (ReplaceAll withoutPort (Sprintf_dot_s namespace) "")
    end.

(** ** The gRPC and X-Ray types the interceptors handle *)

(** Go [error] values: [nil] is [None]. [errors.New] builds an
    [errorString]; a gRPC status error carries an RPC status code. *)
Inductive error : Type :=
| errorString (msg : string)
| statusError (code : Z) (msg : string).

Definition errors_New (msg : string) : error := errorString msg.

(** [net.Addr] and [peer.Peer] *)
Record Addr := { Network : string; AddrString : string }.
Record Peer := { PeerAddr : Addr }.

(** [header.Header] of the X-Ray SDK *)
Record Header := {
  TraceID : string;
  ParentID : string;
  SamplingDecision : string;
  AdditionalData : gmap string string;
}.

(** [xray.RequestData], [xray.ResponseData], [xray.HTTPData] *)
Record RequestData := {
  Method : string;
  URL : string;
  ClientIP : string;
  UserAgent : string;
  XForwardedFor : bool;
  Traced : bool;
}.

Record ResponseData := { Status : Z; ContentLength : Z }.

Record HTTPData := {
  Request : option RequestData;
  Response : option ResponseData;
}.

(** [*xray.Segment] is a pointer; [SegId] is its address. *)
Definition SegId := nat.

(** The fields of [xray.Segment] the interceptors touch. [closedWith]
    lists the arguments of the [Close] calls received so far. *)
Record Segment := {
  SegName : string;
  IncomingHeader : option Header;
  ParentSegment : option SegId;
  HTTP : option HTTPData;
  closedWith : list (option error);
}.

(** The segments in memory. Go never frees a segment that is still
    referenced, so every address reads and writes. *)
Record Store := {
  segments : SegId -> Segment;
  nextSeg : SegId;
}.

(** [context.Context], reduced to the values the program reads from it:
    incoming metadata, outgoing metadata pairs, peer, current segment. *)
Record Context := {
  incomingMD : option (gmap string (list string));
  outgoingKV : list (string * string);
  peerInfo : option Peer;
  ctxSegment : option SegId;
}.

(** [*grpc.ClientConn] and [*grpc.UnaryServerInfo] *)
Record ClientConn := { Target : string }.
Record UnaryServerInfo := { FullMethod : string }.

(** The constants of [main.go], and the SDK's [xray.TraceIDHeaderKey]. *)
Definition GrpcMethod : string := "POST".
Definition CustomUserAgent : string := "Vendrive-gRPC-XRAY-Interceptor".
Definition TraceIDHeaderKey : string := "x-amzn-trace-id".

(** [xray.SegmentNamer] is an interface with the one method [Name]. *)
Class SegmentNamer (T : Type) := Name : T -> string -> string.

Record FixedSegmentNamer := { FixedName : string }.
Definition NewFixedSegmentNamer (name : string) : FixedSegmentNamer :=
  {| FixedName := name |}.
#[export] Instance FixedSegmentNamer_Name : SegmentNamer FixedSegmentNamer :=
  fun sn _ => FixedName sn.

(** What the program needs from the SDK without fixing it: the parser
    [header.FromString], [Segment.DownstreamHeader] and [Header.String]. *)
Class TracingBackend := {
  FromString : string -> Header;
  DownstreamHeader : Store -> SegId -> Header;
  HeaderString : Header -> string;
}.

(** *** Segment accessors *)

Definition emptySegment : Segment :=
  {| SegName := ""; IncomingHeader := None; ParentSegment := None;
     HTTP := None; closedWith := [] |}.

Definition updSegment (f : Segment -> Segment) (id : SegId) (st : Store) : Store :=
  {| segments := fun i => if Nat.eqb i id then f (segments st i) else segments st i;
     nextSeg := nextSeg st |}.

Definition allocSegment (s : Segment) (st : Store) : SegId * Store :=
  (nextSeg st,
   {| segments := fun i => if Nat.eqb i (nextSeg st) then s else segments st i;
      nextSeg := S (nextSeg st) |}).

(** [seg.GetHTTP()], [d.GetRequest()], [d.GetResponse()] create the
    record on first use. *)
Definition GetHTTP (s : Segment) : HTTPData :=
  match HTTP s with
  | Some d => d
  | None => {| Request := None; Response := None |}
  end.

Definition GetRequest (d : HTTPData) : RequestData :=
  match Request d with
  | Some r => r
  | None => {| Method := ""; URL := ""; ClientIP := ""; UserAgent := "";
               XForwardedFor := false; Traced := false |}
  end.

Definition GetResponse (d : HTTPData) : ResponseData :=
  match Response d with
  | Some r => r
  | None => {| Status := 0; ContentLength := 0 |}
  end.

Definition withHTTP (d : HTTPData) (s : Segment) : Segment :=
  {| SegName := SegName s; IncomingHeader := IncomingHeader s;
     ParentSegment := ParentSegment s; HTTP := Some d;
     closedWith := closedWith s |}.

(** [seg.GetHTTP().Request = rd] *)
Definition setRequest (rd : RequestData) (s : Segment) : Segment :=
  withHTTP {| Request := Some rd; Response := Response (GetHTTP s) |} s.

(** [seg.GetHTTP().GetRequest().Method = m] *)
Definition setRequestMethod (m : string) (s : Segment) : Segment :=
  let r := GetRequest (GetHTTP s) in
  withHTTP {| Request := Some {| Method := m; URL := URL r;
                                 ClientIP := ClientIP r;
                                 UserAgent := UserAgent r;
                                 XForwardedFor := XForwardedFor r;
                                 Traced := Traced r |};
              Response := Response (GetHTTP s) |} s.

(** [seg.GetHTTP().GetResponse().Status = v] *)
Definition setResponseStatus (v : Z) (s : Segment) : Segment :=
  let r := GetResponse (GetHTTP s) in
  withHTTP {| Request := Request (GetHTTP s);
              Response := Some {| Status := v;
                                  ContentLength := ContentLength r |} |} s.

Definition markClosed (err : option error) (s : Segment) : Segment :=
  {| SegName := SegName s; IncomingHeader := IncomingHeader s;
     ParentSegment := ParentSegment s; HTTP := HTTP s;
     closedWith := closedWith s ++ [err] |}.

(** Reading back what a segment holds. *)
Definition requestOf (st : Store) (id : SegId) : option RequestData :=
  d ← HTTP (segments st id); Request d.

Definition responseStatusOf (st : Store) (id : SegId) : option Z :=
  d ← HTTP (segments st id); r ← Response d; Some (Status r).

Definition withSegment (id : SegId) (ctx : Context) : Context :=
  {| incomingMD := incomingMD ctx; outgoingKV := outgoingKV ctx;
     peerInfo := peerInfo ctx; ctxSegment := Some id |}.

(** [metadata.AppendToOutgoingContext(ctx, k, v)] *)
Definition appendOutgoing (k v : string) (ctx : Context) : Context :=
  {| incomingMD := incomingMD ctx; outgoingKV := outgoingKV ctx ++ [(k, v)];
     peerInfo := peerInfo ctx; ctxSegment := ctxSegment ctx |}.

(** ** Computations: state, a trace of the calls made, and panics *)

Section Interceptors.

(** [Msg] stands for the dynamic values behind [interface{}] (requests
    and replies; [nil] is [None]), [CallOption] for [grpc.CallOption]. *)
Context {Msg CallOption : Type}.
Context {backend : TracingBackend}.

(** The calls a run makes on its collaborators, in order. The call of
    the wrapped handler or invoker is recorded with the store it
    started from. *)
Inductive Event : Type :=
| EHostFromTarget (target : string)
| EBeginSubsegment (name : string) (seg : option SegId)
| EGetSegment (seg : option SegId)
| ELock (seg : SegId)
| EUnlock (seg : SegId)
| ESetRequestMethod (seg : SegId) (m : string)
| EDownstreamHeader (seg : SegId)
| EAppendToOutgoingContext (k v : string)
| EInvoker (ctx : Context) (method : string) (req reply : option Msg)
           (cc : ClientConn) (opts : list CallOption) (at_call : Store)
| ESetResponseStatus (seg : SegId) (status : Z)
| EClose (seg : SegId) (err : option error)
| ESegmentNamer (arg : string)
| EFromIncomingContext
| EHeaderFromString (s : string)
| ENewSegmentFromHeader (name : string) (h : Header) (seg : SegId)
| EPeerFromContext
| ESetRequest (seg : SegId) (rd : RequestData)
| EHandler (ctx : Context) (req : option Msg) (at_call : Store).

(** A computation runs on a store and yields an outcome, the new store
    and the calls it made. A panic keeps the store and the calls made
    up to it. *)
Definition M (A : Type) : Type := Store -> Outcome A * Store * list Event.

Definition ret {A} (a : A) : M A := fun st => (Ret a, st, []).

Definition bind {A B} (m : M A) (k : A -> M B) : M B :=
  fun st =>
    match m st with
    | (Ret a, st1, t1) =>
        match k a st1 with
        | (r, st2, t2) => (r, st2, t1 ++ t2)
        end
    | (Panic p, st1, t1) => (Panic p, st1, t1)
    end.

Definition emit (e : Event) : M unit := fun st => (Ret tt, st, [e]).

Definition modify (f : Store -> Store) : M unit := fun st => (Ret tt, f st, []).

Definition lift {A} (o : Outcome A) : M A := fun st => (o, st, []).

(** [defer d] followed by [body]: [d] runs when [body] is left, by
    return or by panic. *)
Definition defer {A} (d : M unit) (body : M A) : M A :=
  fun st =>
    match body st with
    | (r, st1, t1) =>
        match d st1 with
        | (Ret _, st2, t2) => (r, st2, t1 ++ t2)
        | (Panic p, st2, t2) => (Panic p, st2, t1 ++ t2)
        end
    end.

Notation "x <- m ;; k" := (bind m (fun x => k))
  (at level 100, m at next level, right associativity, only parsing).
Notation "m ;;; k" := (bind m (fun _ => k))
  (at level 100, right associativity, only parsing).

(** *** The collaborators' operations *)

(** [hostFromTarget] is a caller-supplied Go function; it may panic. *)
Definition call_hostFromTarget (f : string -> Outcome string) (target : string)
  : M string :=
  emit (EHostFromTarget target) ;;; lift (f target).

Definition sn_Name {T} {namer : SegmentNamer T} (sn : T) (arg : string) : M string :=
  emit (ESegmentNamer arg) ;;; ret (Name sn arg).

Definition metadata_FromIncomingContext (ctx : Context)
  : M (option (gmap string (list string))) :=
  emit EFromIncomingContext ;;; ret (incomingMD ctx).

Definition metadata_AppendToOutgoingContext (ctx : Context) (k v : string)
  : M Context :=
  emit (EAppendToOutgoingContext k v) ;;; ret (appendOutgoing k v ctx).

Definition peer_FromContext (ctx : Context) : M (option Peer) :=
  emit EPeerFromContext ;;; ret (peerInfo ctx).

Definition header_FromString (s : string) : M Header :=
  emit (EHeaderFromString s) ;;; ret (FromString s).

(** The index expression [l[i]] on a slice. *)
Definition index_at (l : list string) (i : nat) : M string :=
  match l !! i with
  | Some v => ret v
  | None => lift (Panic (BoundsError (Z.of_nat i) (Z.of_nat (length l))))
  end.

(** [xray.NewSegmentFromHeader(ctx, name, nil, h)]: a new segment named
    [name] that continues [h], and a context that carries it. *)
Definition xray_NewSegmentFromHeader (ctx : Context) (name : string) (h : Header)
  : M (Context * SegId) :=
  fun st =>
    let '(id, st1) :=
      allocSegment {| SegName := name; IncomingHeader := Some h;
                      ParentSegment := None; HTTP := None;
                      closedWith := [] |} st in
    (Ret (withSegment id ctx, id), st1, [ENewSegmentFromHeader name h id]).

Definition xray_GetSegment (ctx : Context) : M (option SegId) :=
  emit (EGetSegment (ctxSegment ctx)) ;;; ret (ctxSegment ctx).

(** The mutex of a segment: the calls are recorded, a run is sequential. *)
Definition seg_Lock (seg : SegId) : M unit := emit (ELock seg).
Definition seg_Unlock (seg : SegId) : M unit := emit (EUnlock seg).

Definition seg_Close (seg : SegId) (err : option error) : M unit :=
  emit (EClose seg err) ;;; modify (updSegment (markClosed err) seg).

Definition seg_SetRequest (seg : SegId) (rd : RequestData) : M unit :=
  emit (ESetRequest seg rd) ;;; modify (updSegment (setRequest rd) seg).

Definition seg_SetRequestMethod (seg : SegId) (m : string) : M unit :=
  emit (ESetRequestMethod seg m) ;;; modify (updSegment (setRequestMethod m) seg).

Definition seg_SetResponseStatus (seg : SegId) (v : Z) : M unit :=
  emit (ESetResponseStatus seg v) ;;; modify (updSegment (setResponseStatus v) seg).

Definition seg_DownstreamHeader (seg : SegId) : M Header :=
  fun st => (Ret (DownstreamHeader st seg), st, [EDownstreamHeader seg]).

(** [xray.BeginSubsegment]: a subsegment of the context's segment, or
    [nil] and the context as it is when the context has none (the SDK then
    reports to its context-missing strategy, taken here to log and go
    on). *)
Definition xray_BeginSubsegment (ctx : Context) (name : string)
  : M (Context * option SegId) :=
  fun st =>
    match ctxSegment ctx with
    | None => (Ret (ctx, None), st, [EBeginSubsegment name None])
    | Some parent =>
        let '(id, st1) :=
          allocSegment {| SegName := name; IncomingHeader := None;
                          ParentSegment := Some parent; HTTP := None;
                          closedWith := [] |} st in
        (Ret (withSegment id ctx, Some id), st1,
         [EBeginSubsegment name (Some id)])
    end.

(** [xray.Capture(ctx, name, fn)]: [fn] runs between the opening of a
    subsegment and its close; the close receives the error [fn]
    returned, or an error made of the value [fn] panicked with. *)
Definition panicError (p : PanicValue) : error :=
  match p with
  | BoundsError _ _ => errorString "runtime error: out of range"
  | OtherPanic msg => errorString msg
  end.

Definition xray_Capture (ctx : Context) (name : string)
    (fn : Context -> M (option error)) : M (option error) :=
  c_seg <- xray_BeginSubsegment ctx name ;;
  fun st =>
    match fn (fst c_seg) st with
    | (r, st1, t1) =>
        let err := match r with Ret err => err | Panic p => Some (panicError p) end in
        match snd c_seg with
        | Some seg =>
            match seg_Close seg err st1 with
            | (_, st2, t2) => (r, st2, t1 ++ t2)
            end
        | None => (r, st1, t1)
        end
    end.

(** *** The wrapped calls *)

(** A [grpc.UnaryHandler] and a [grpc.UnaryInvoker]: Go functions that
    may change the segments and may panic. *)
Definition UnaryHandler : Type :=
  Context -> option Msg -> Store -> Outcome (option Msg * option error) * Store.

Definition UnaryInvoker : Type :=
  Context -> string -> option Msg -> option Msg -> ClientConn ->
  list CallOption -> Store -> Outcome (option error) * Store.

Definition call_handler (handler : UnaryHandler) (ctx : Context) (req : option Msg)
  : M (option Msg * option error) :=
  fun st =>
    match handler ctx req st with
    | (r, st1) => (r, st1, [EHandler ctx req st])
    end.

Definition call_invoker (invoker : UnaryInvoker) (ctx : Context) (method : string)
    (req reply : option Msg) (cc : ClientConn) (opts : list CallOption)
  : M (option error) :=
  fun st =>
    match invoker ctx method req reply cc opts st with
    | (r, st1) => (r, st1, [EInvoker ctx method req reply cc opts st])
    end.

(** ** [NewGrpcXrayUnaryClientInterceptor] *)

Definition UnaryClientInterceptor : Type :=
  Context -> string -> option Msg -> option Msg -> ClientConn ->
  UnaryInvoker -> list CallOption -> M (option error).

Definition NewGrpcXrayUnaryClientInterceptor
    (hostFromTarget : string -> Outcome string) : UnaryClientInterceptor :=
  fun ctx method req resp cc invoker opts =>
    host <- call_hostFromTarget hostFromTarget (Target cc) ;;
    err <- xray_Capture ctx host (fun ctx =>
      seg <- xray_GetSegment ctx ;;
      match seg with
      | None => call_invoker invoker ctx method req resp cc opts
      | Some seg =>
          seg_Lock seg ;;;
          seg_SetRequestMethod seg GrpcMethod ;;;
          h <- seg_DownstreamHeader seg ;;
          ctx <- metadata_AppendToOutgoingContext ctx TraceIDHeaderKey
                   (HeaderString h) ;;
          seg_Unlock seg ;;;
          err <- call_invoker invoker ctx method req resp cc opts ;;
          seg_Lock seg ;;;
          match err with
          | Some _ => seg_SetResponseStatus seg 400
          | None => seg_SetResponseStatus seg 200
          end ;;;
          seg_Unlock seg ;;;
          ret err
      end) ;;
    ret err.

(** ** [NewGrpcXrayUnaryServerInterceptor] *)

Definition UnaryServerInterceptor : Type :=
  Context -> option Msg -> UnaryServerInfo -> UnaryHandler ->
  M (option Msg * option error).

Definition NewGrpcXrayUnaryServerInterceptor {T} {namer : SegmentNamer T} (sn : T)
  : UnaryServerInterceptor :=
  fun ctx req info handler =>
    name <- sn_Name sn "only NewFixedSegmentNamer is supported" ;;
    md_ok <- metadata_FromIncomingContext ctx ;;
    match md_ok with
    | None => ret (None, Some (errors_New "unable to read metadata"))
    | Some md =>
        traceString <-
          match md !! TraceIDHeaderKey with
          | Some traceHeaderValueList =>
              if (0 <? Z.of_nat (length traceHeaderValueList))
              then index_at traceHeaderValueList 0
              else ret ""
          | None => ret ""
          end ;;
        traceHeader <- header_FromString traceString ;;
        ctx_seg <- xray_NewSegmentFromHeader ctx name traceHeader ;;
        let ctx := fst ctx_seg in
        let seg := snd ctx_seg in
        defer (seg_Close seg None) (
          seg_Lock seg ;;;
          p_ok <- peer_FromContext ctx ;;
          let ClientIP := match p_ok with
                          | Some p => AddrString (PeerAddr p)
                          | None => ""
                          end in
          let reqData := {| Method := GrpcMethod;
                            URL := FullMethod info;
                            ClientIP := ClientIP;
                            UserAgent := CustomUserAgent;
                            XForwardedFor := false;
                            Traced := false |} in
          seg_SetRequest seg reqData ;;;
          seg_Unlock seg ;;;
          resp_err <- call_handler handler ctx req ;;
          seg_Lock seg ;;;
          match snd resp_err with
          | Some _ => seg_SetResponseStatus seg 400
          | None => seg_SetResponseStatus seg 200
          end ;;;
          seg_Unlock seg ;;;
          ret (fst resp_err, snd resp_err))
    end.

(** ** Reading a trace *)

Definition hostFromTargetCalls (t : list Event) : list string :=
  omap (fun e => match e with EHostFromTarget x => Some x | _ => None end) t.

Definition segmentChecks (t : list Event) : list (option SegId) :=
  omap (fun e => match e with EGetSegment s => Some s | _ => None end) t.

Definition methodWrites (t : list Event) : list (SegId * string) :=
  omap (fun e => match e with ESetRequestMethod s m => Some (s, m) | _ => None end) t.


Definition statusWrites (t : list Event) : list (SegId * Z) :=
  omap (fun e => match e with ESetResponseStatus s v => Some (s, v) | _ => None end) t.

Definition metadataInjections (t : list Event) : list (string * string) :=
  omap (fun e => match e with
                 | EAppendToOutgoingContext k v => Some (k, v)
                 | _ => None
                 end) t.

Definition closeCalls (t : list Event) : list (SegId * option error) :=
  omap (fun e => match e with EClose s err => Some (s, err) | _ => None end) t.

Definition headerParses (t : list Event) : list string :=
  omap (fun e => match e with EHeaderFromString x => Some x | _ => None end) t.

Definition segmentsCreated (t : list Event) : list SegId :=
  omap (fun e => match e with
                 | ENewSegmentFromHeader _ _ s => Some s
                 | EBeginSubsegment _ (Some s) => Some s
                 | _ => None
                 end) t.

Definition newSegmentCalls (t : list Event) : list (string * Header * SegId) :=
  omap (fun e => match e with
                 | ENewSegmentFromHeader n h s => Some (n, h, s)
                 | _ => None
                 end) t.

Definition handlerCalls (t : list Event) : list (Context * option Msg * Store) :=
  omap (fun e => match e with EHandler c r s => Some (c, r, s) | _ => None end) t.

Definition invokerCalls (t : list Event)
  : list (Context * string * option Msg * option Msg * ClientConn
          * list CallOption * Store) :=
  omap (fun e => match e with
                 | EInvoker c m rq rp cc o s => Some (c, m, rq, rp, cc, o, s)
                 | _ => None
                 end) t.

(** The three parts of a finished run. *)
Definition outcomeOf {A} (r : Outcome A * Store * list Event) : Outcome A := r.1.1.
Definition storeOf {A} (r : Outcome A * Store * list Event) : Store := r.1.2.
Definition traceOf {A} (r : Outcome A * Store * list Event) : list Event := r.2.

End Interceptors.

(** ** Sample collaborators, for running the interceptors on examples *)

Module Sample.

Definition header (trace : string) : Header :=
  {| TraceID := trace; ParentID := ""; SamplingDecision := "";
     AdditionalData := ∅ |}.

Definition backend : TracingBackend :=
  {| FromString := header;
     DownstreamHeader := fun st seg => header (SegName (segments st seg));
     HeaderString := TraceID |}.

Definition store : Store :=
  {| segments := fun _ => emptySegment; nextSeg := 0%nat |}.

Definition peer : Peer :=
  {| PeerAddr := {| Network := "tcp"; AddrString := "10.0.0.7:51000" |} |}.

Definition serverCtx : Context :=
  {| incomingMD := Some {[ TraceIDHeaderKey := ["Root=1-5e1b4151"; "Root=2"] ]};
     outgoingKV := []; peerInfo := Some peer; ctxSegment := None |}.

Definition bareCtx : Context :=
  {| incomingMD := None; outgoingKV := []; peerInfo := None;
     ctxSegment := None |}.

(** A store that holds one open segment, and a context that carries it. *)
Definition tracedStore : Store :=
  {| segments := fun i => if Nat.eqb i 0
                          then {| SegName := "root"; IncomingHeader := None;
                                  ParentSegment := None; HTTP := None;
                                  closedWith := [] |}
                          else emptySegment;
     nextSeg := 1%nat |}.

Definition tracedCtx : Context :=
  {| incomingMD := None; outgoingKV := []; peerInfo := None;
     ctxSegment := Some 0%nat |}.

Definition info : UnaryServerInfo := {| FullMethod := "/pkg.Service/Get" |}.

Definition conn : ClientConn := {| Target := "svc.ns.local:443" |}.

Definition notFound : error := statusError 5 "not found".

(** A handler that fails and still hands back a reply. *)
Definition failingHandler : @UnaryHandler string :=
  fun _ _ st => (Ret (Some "partial", Some notFound), st).

Definition echoHandler : @UnaryHandler string :=
  fun _ req st => (Ret (req, None), st).

Definition panickingHandler : @UnaryHandler string :=
  fun _ _ st => (Panic (OtherPanic "boom"), st).

Definition failingInvoker : @UnaryInvoker string unit :=
  fun _ _ _ _ _ _ st => (Ret (Some notFound), st).

Definition server : @UnaryServerInterceptor string unit :=
  @NewGrpcXrayUnaryServerInterceptor string unit backend _ _
    (NewFixedSegmentNamer "svc").

Definition client (hostFromTarget : string -> Outcome string)
  : @UnaryClientInterceptor string unit :=
  @NewGrpcXrayUnaryClientInterceptor string unit backend hostFromTarget.

End Sample.

(** ** Vocabulary of the properties

    The definitions below are not part of the program: they say, in the
    words of the specification, what the properties are about. *)

(** The status a wrapped call's error stands for. *)
Definition statusFor (err : option error) : Z :=
  match err with
  | Some _ => 400
  | None => 200
  end.

(** The byte [c] occurs in [s]. *)
Fixpoint byte_in (c : ascii) (s : string) : Prop :=
  match s with
  | EmptyString => False
  | String a s' => a = c \/ byte_in c s'
  end.

(** [pat] occurs in [s] at byte offset [n]. *)
Definition occurs_at (pat s : string) (n : nat) : Prop :=
  exists a b, s = a +:+ pat +:+ b /\ String.length a = n.

Definition no_occurrence (pat s : string) : Prop :=
  forall n, ~ occurs_at pat s n.

(** [r] is [s] with every instance of [pat] removed, where the instances
    are found from left to right and the search resumes behind each one
    (so instances do not overlap, and the result is not searched again). *)
Inductive RemovedEvery (pat : string) : string -> string -> Prop :=
| RemovedEvery_none s :
    no_occurrence pat s -> RemovedEvery pat s s
| RemovedEvery_next a b r :
    (forall n, occurs_at pat (a +:+ pat +:+ b) n -> (String.length a <= n)%nat) ->
    RemovedEvery pat b r ->
    RemovedEvery pat (a +:+ pat +:+ b) (a +:+ r).

(** [s] up to its first byte [c] (all of [s] when there is none). *)
Fixpoint before_first (c : ascii) (s : string) : string :=
  match s with
  | EmptyString => EmptyString
  | String a s' => if Ascii.eqb a c then EmptyString else String a (before_first c s')
  end.

(** [s] with its first instance of [pat] removed, later ones left in
    place. *)
Fixpoint remove_first (pat s : string) : string :=
  if String.prefix pat s then str_drop (String.length pat) s
  else match s with
       | EmptyString => EmptyString
       | String a s' => String a (remove_first pat s')
       end.

(** The names the runs give to [xray.Capture]. *)
Definition captureNames {Msg CallOption : Type}
    (t : list (@Event Msg CallOption)) : list string :=
  omap (fun e => match e with EBeginSubsegment n _ => Some n | _ => None end) t.

(** The arguments the segment namer is called with. *)
Definition namerCalls {Msg CallOption : Type}
    (t : list (@Event Msg CallOption)) : list string :=
  omap (fun e => match e with ESegmentNamer a => Some a | _ => None end) t.

(** The discipline of the segment mutexes along a trace, starting with the
    mutexes [held]: a mutex is locked only when free and unlocked only when
    held ([sync.Mutex] is not reentrant), a segment's fields are read and
    written with its mutex held, and the wrapped handler or invoker is
    called with no mutex held. The result is the mutexes held at the end,
    or [None] where the trace breaks the discipline. *)
Definition holds (seg : SegId) (held : list SegId) : bool :=
  existsb (Nat.eqb seg) held.

Definition release (seg : SegId) (held : list SegId) : list SegId :=
  List.filter (fun s => negb (Nat.eqb seg s)) held.

Definition lockStep {Msg CallOption : Type} (e : @Event Msg CallOption)
    (held : list SegId) : option (list SegId) :=
  match e with
  | ELock seg => if holds seg held then None else Some (seg :: held)
  | EUnlock seg => if holds seg held then Some (release seg held) else None
  | ESetRequestMethod seg _ | EDownstreamHeader seg | ESetRequest seg _
  | ESetResponseStatus seg _ =>
      if holds seg held then Some held else None
  | EInvoker _ _ _ _ _ _ _ | EHandler _ _ _ =>
      match held with
      | [] => Some held
      | _ => None
      end
  | _ => Some held
  end.

Fixpoint lockDiscipline {Msg CallOption : Type}
    (t : list (@Event Msg CallOption)) (held : list SegId)
  : option (list SegId) :=
  match t with
  | [] => Some held
  | e :: t' =>
      match lockStep e held with
      | Some held' => lockDiscipline t' held'
      | None => None
      end
  end.

(** * Properties *)

(** ** Strings *)

Section StringFacts.

#[local] Arguments String.append !_ _ / : simpl nomatch.

Lemma append_empty_r s : s +:+ "" = s.
Proof. induction s as [|a s IH]; simpl; congruence. Qed.

Lemma length_append' (a b : string) :
  String.length (a +:+ b) = (String.length a + String.length b)%nat.
Proof. induction a as [|x a IH]; simpl; congruence. Qed.

Lemma str_take_app (a b : string) : str_take (String.length a) (a +:+ b) = a.
Proof. induction a as [|x a IH]; simpl; [by destruct b | congruence]. Qed.

Lemma str_drop_app (a b : string) (k : nat) :
  str_drop (String.length a + k) (a +:+ b) = str_drop k b.
Proof. induction a as [|x a IH]; simpl; done. Qed.

Lemma str_drop_0 s : str_drop 0 s = s.
Proof. by destruct s. Qed.

Lemma str_drop_all_app (a b : string) : str_drop (String.length a) (a +:+ b) = b.
Proof.
  rewrite <- (Nat.add_0_r (String.length a)), str_drop_app. apply str_drop_0.
Qed.

Lemma prefix_iff (p s : string) :
  String.prefix p s = true <-> exists t, s = p +:+ t.
Proof.
  revert s. induction p as [|x p IH]; intros s.
  - split; [intros _; exists s; done | intros _; by destruct s].
  - destruct s as [|y s]; simpl.
    + split; [done | intros [t Ht]; discriminate].
    + destruct (Ascii.ascii_dec x y) as [->|Hne].
      * rewrite IH. split; intros [t Ht]; exists t; simpl in *; congruence.
      * split; [done | intros [t Ht]; simpl in *; congruence].
Qed.

Lemma occurs_at_0 pat s : occurs_at pat s 0 <-> String.prefix pat s = true.
Proof.
  rewrite prefix_iff. split.
  - intros (a & b & -> & Ha). destruct a; [|done]. by exists b.
  - intros [t ->]. by exists "", t.
Qed.

Lemma occurs_at_S pat c s n :
  occurs_at pat (String c s) (S n) <-> occurs_at pat s n.
Proof.
  split.
  - intros (a & b & Hs & Ha). destruct a as [|x a]; [done|].
    simpl in *. exists a, b. split; congruence.
  - intros (a & b & -> & Ha). exists (String c a), b. simpl. split; congruence.
Qed.

Lemma occurs_at_empty pat n : pat <> "" -> ~ occurs_at pat "" n.
Proof.
  intros Hp (a & b & Hs & _). destruct a; [|done]. by destruct pat.
Qed.

Lemma no_occurrence_cons pat c s :
  String.prefix pat (String c s) = false ->
  no_occurrence pat s -> no_occurrence pat (String c s).
Proof.
  intros Hp Hno [|n] Hocc.
  - apply occurs_at_0 in Hocc. congruence.
  - apply occurs_at_S in Hocc. by apply (Hno n).
Qed.

(** [strings.Index] finds the first instance, or answers [-1] when there
    is none. *)
Lemma indexFrom_cases (s pat : string) (i : Z) :
  0 <= i ->
  (indexFrom s pat i = -1 /\ no_occurrence pat s) \/
  (exists a b, s = a +:+ pat +:+ b /\
               (forall n, occurs_at pat s n -> (String.length a <= n)%nat) /\
               indexFrom s pat i = i + len a).
Proof.
  revert i. induction s as [|c s IH]; intros i Hi.
  - destruct pat as [|x pat].
    + right. exists "", "". simpl.
      split_and!; [done | intros; lia | unfold len; simpl; lia].
    + left. simpl. split; [done|]. intros n. by apply occurs_at_empty.
  - cbn [indexFrom]. unfold HasPrefix.
    destruct (String.prefix pat (String c s)) eqn:Hp.
    + right. apply prefix_iff in Hp as [t Ht].
      exists "", t. simpl.
      split_and!; [done | intros; lia | unfold len; simpl; lia].
    + destruct (IH (i + 1) ltac:(lia)) as [[Hidx Hno]|(a & b & -> & Hfirst & Hidx)].
      * left. split; [done|]. by apply no_occurrence_cons.
      * right. exists (String c a), b. split_and!; [done| |].
        -- intros [|n] Hocc; [apply occurs_at_0 in Hocc; congruence|].
           apply occurs_at_S in Hocc. apply Hfirst in Hocc. simpl. lia.
        -- rewrite Hidx. unfold len. simpl String.length. lia.
Qed.

Lemma Index_cases (s pat : string) :
  (Index s pat = -1 /\ no_occurrence pat s) \/
  (exists a b, s = a +:+ pat +:+ b /\
               (forall n, occurs_at pat s n -> (String.length a <= n)%nat) /\
               Index s pat = len a).
Proof.
  unfold Index. destruct (indexFrom_cases s pat 0 ltac:(lia)) as [?|(a & b & ? & ? & Hi)];
    [by left | right; exists a, b; rewrite Hi; split_and!; (done || lia)].
Qed.

(** [strings.IndexByte] finds the first byte [c], or answers [-1]. *)
Lemma indexByteFrom_cases (s : string) (c : ascii) (i : Z) :
  0 <= i ->
  (indexByteFrom s c i = -1 /\ ~ byte_in c s) \/
  (exists a b, s = a +:+ String c b /\ ~ byte_in c a /\
               indexByteFrom s c i = i + len a).
Proof.
  revert i. induction s as [|x s IH]; intros i Hi; simpl.
  - left. split; [done | tauto].
  - destruct (Ascii.eqb_spec x c) as [->|Hne].
    + right. exists "", s. simpl. split_and!; [done | tauto | unfold len; simpl; lia].
    + destruct (IH (i + 1) ltac:(lia)) as [[Hidx Hno]|(a & b & -> & Hno & Hidx)].
      * left. split; [done | tauto].
      * right. exists (String x a), b. simpl. split_and!; [done | tauto |].
        rewrite Hidx. unfold len. simpl String.length. lia.
Qed.

Lemma byte_in_middle c a b : byte_in c (a +:+ String c b).
Proof. induction a as [|x a IH]; simpl; tauto. Qed.

Lemma len_nonneg s : 0 <= len s.
Proof. unfold len. lia. Qed.

Lemma len_append (a b : string) : len (a +:+ b) = len a + len b.
Proof. unfold len. rewrite length_append'. lia. Qed.

Lemma drop_behind (a pat b : string) :
  str_drop (Z.to_nat (len a + len pat)) (a +:+ pat +:+ b) = b.
Proof.
  unfold len. rewrite <- Nat2Z.inj_add, Nat2Z.id, str_drop_app.
  apply str_drop_all_app.
Qed.

(** *** [strings.Count] *)

Lemma byte_in_occurs c a x :
  byte_in c a ->
  exists n, (n < String.length a)%nat /\ occurs_at (String c "") (a +:+ x) n.
Proof.
  induction a as [|y a IH]; simpl; [done|]. intros [->|Hin].
  - exists 0%nat. split; [lia|]. apply occurs_at_0. simpl.
    by destruct (Ascii.ascii_dec c c); [destruct (a +:+ x)|].
  - destruct (IH Hin) as (n & Hn & Hocc). exists (S n). split; [lia|].
    by apply occurs_at_S.
Qed.

Lemma CountString_absent c s : ~ byte_in c s -> CountString s c = 0.
Proof.
  induction s as [|x s IH]; simpl; [done|]. intros Hno.
  destruct (Ascii.eqb_spec x c) as [->|Hne]; [tauto|]. rewrite IH; tauto.
Qed.

Lemma CountString_app c a b :
  CountString (a +:+ b) c = CountString a c + CountString b c.
Proof. induction a as [|x a IH]; simpl; [done|]. rewrite IH. lia. Qed.

Lemma countLoop_single c fuel s :
  (String.length s < fuel)%nat ->
  countLoop fuel s (String c "") = CountString s c.
Proof.
  revert s. induction fuel as [|fuel IH]; intros s Hlen; [lia|].
  cbn [countLoop].
  destruct (Index_cases s (String c "")) as [[Hi Hno]|(a & b & -> & Hfirst & Hi)];
    rewrite Hi.
  - simpl. symmetry. apply CountString_absent. intros Hin.
    destruct (byte_in_occurs c s "" Hin) as (n & _ & Hocc).
    rewrite append_empty_r in Hocc. by apply (Hno n).
  - pose proof (len_nonneg a).
    destruct (Z.eqb_spec (len a) (-1)) as [?|_]; [lia|].
    rewrite drop_behind, IH.
    + rewrite CountString_app. simpl.
      rewrite Ascii.eqb_refl, (CountString_absent c a); [lia|].
      intros Hin. destruct (byte_in_occurs c a (String c "" +:+ b) Hin)
        as (n & Hn & Hocc).
      apply Hfirst in Hocc. lia.
    + rewrite !length_append' in Hlen. simpl in Hlen. lia.
Qed.

Lemma Count_countLoop s pat :
  pat <> "" -> Count s pat = countLoop (S (String.length s)) s pat.
Proof.
  intros Hne. destruct pat as [|c [|d pat]]; [done| |done].
  unfold Count. symmetry. apply countLoop_single. lia.
Qed.

Lemma countLoop_nonneg fuel s pat : 0 <= countLoop fuel s pat.
Proof.
  revert s. induction fuel as [|fuel IH]; intros s; simpl; [lia|].
  destruct (_ =? _); [lia|].
  specialize (IH (str_drop (Z.to_nat (Index s pat + len pat)) s)). lia.
Qed.

(** *** [strings.Replace] with the empty replacement *)

Lemma replaceLoop_removes pat fuel s first :
  pat <> "" ->
  (String.length s < fuel)%nat ->
  RemovedEvery pat s
    (replaceLoop (Z.to_nat (countLoop fuel s pat)) first s pat "").
Proof.
  intros Hne. revert s first.
  induction fuel as [|fuel IH]; intros s first Hlen; [lia|].
  cbn [countLoop].
  destruct (Index_cases s pat) as [[Hi Hno]|(a & b & -> & Hfirst & Hi)];
    rewrite Hi.
  - simpl. by apply RemovedEvery_none.
  - pose proof (len_nonneg a).
    destruct (Z.eqb_spec (len a) (-1)) as [?|_]; [lia|].
    rewrite drop_behind.
    pose proof (countLoop_nonneg fuel b pat).
    rewrite Z2Nat.inj_add, (Z2Nat.inj_pos 1) by lia.
    change (Pos.to_nat 1) with 1%nat. cbn [Nat.add replaceLoop].
    assert (Hj : match pat with
                 | EmptyString => if first then 0%nat
                                  else DecodeRuneSize (a +:+ pat +:+ b)
                 | String _ _ => Z.to_nat (Index (a +:+ pat +:+ b) pat)
                 end = String.length a).
    { destruct pat; [done|]. rewrite Hi. unfold len. apply Nat2Z.id. }
    rewrite Hj, str_take_app, str_drop_app, str_drop_all_app.
    simpl. apply RemovedEvery_next; [done|]. apply IH.
    rewrite !length_append' in Hlen. destruct pat; [done|]. simpl in Hlen. lia.
Qed.

Lemma ReplaceAll_removes s pat :
  pat <> "" -> RemovedEvery pat s (ReplaceAll s pat "").
Proof.
  intros Hne. unfold ReplaceAll, Replace.
  assert (String.eqb pat "" = false) as -> by (by apply String.eqb_neq).
  simpl. rewrite (Count_countLoop s pat Hne).
  pose proof (replaceLoop_removes pat (S (String.length s)) s true Hne ltac:(lia))
    as Hrem.
  destruct (Z.eqb_spec (countLoop (S (String.length s)) s pat) 0) as [Hz|_].
  - rewrite Hz in Hrem. exact Hrem.
  - exact Hrem.
Qed.

(** *** The slice [target[:IndexByte(target, c)]] *)

Lemma slice_at_first_byte (c : ascii) (host rest : string) :
  ~ byte_in c host ->
  slice (host +:+ String c rest) 0 (IndexByte (host +:+ String c rest) c)
  = Ret host.
Proof.
  intros Hno. unfold IndexByte.
  destruct (indexByteFrom_cases (host +:+ String c rest) c 0 ltac:(lia))
    as [[_ Habs]|(a & b & Heq & Hnoa & Hidx)].
  - destruct Habs. apply byte_in_middle.
  - assert (a = host) as ->.
    { clear Hidx. revert a Heq Hnoa.
      induction host as [|x host IH]; intros [|y a] Heq Hnoa; simpl in *.
      - done.
      - injection Heq as <- _. tauto.
      - injection Heq as -> _. tauto.
      - injection Heq as -> Heq. f_equal. apply IH; tauto. }
    rewrite Hidx. unfold slice. pose proof (len_nonneg host).
    rewrite len_append.
    pose proof (len_nonneg (String c rest)).
    destruct (Z.leb_spec 0 0); [|lia].
    destruct (Z.leb_spec 0 (0 + len host)); [|lia].
    destruct (Z.leb_spec (0 + len host) (len host + len (String c rest))); [|lia].
    simpl. f_equal.
    replace (Z.to_nat (0 + len host - 0)) with (String.length host)
      by (unfold len; lia).
    apply str_take_app.
Qed.

Lemma byte_in_split c s :
  byte_in c s -> exists host rest, s = host +:+ String c rest /\ ~ byte_in c host.
Proof.
  induction s as [|x s IH]; simpl; [done|]. intros Hin.
  destruct (Ascii.ascii_dec x c) as [->|Hne].
  - exists "", s. simpl. tauto.
  - destruct IH as (host & rest & -> & Hno); [tauto|].
    exists (String x host), rest. simpl. tauto.
Qed.

Lemma slice_without_byte (c : ascii) (s : string) :
  ~ byte_in c s ->
  slice s 0 (IndexByte s c) = Panic (BoundsError (-1) (len s)).
Proof.
  intros Hno. unfold IndexByte.
  destruct (indexByteFrom_cases s c 0 ltac:(lia))
    as [[-> _]|(a & b & -> & _ & _)].
  - reflexivity.
  - destruct Hno. apply byte_in_middle.
Qed.

End StringFacts.

(** ** The target normalizer *)

Lemma append_same_length (a a' x x' : string) :
  String.length a = String.length a' ->
  a +:+ x = a' +:+ x' -> a = a' /\ x = x'.
Proof.
  revert a'. induction a as [|c a IH]; intros [|c' a'] Hlen Heq;
    try discriminate; [done|].
  injection Heq as -> Heq. injection Hlen as Hlen.
  destruct (IH a' Hlen Heq) as [-> ->]. done.
Qed.

(** Removing every instance leaves one result only. *)
Lemma RemovedEvery_functional (pat s r1 r2 : string) :
  RemovedEvery pat s r1 -> RemovedEvery pat s r2 -> r1 = r2.
Proof.
  intros H1. revert r2. induction H1 as [s Hno|a b r Hfirst H1 IH]; intros r2 H2.
  - inversion H2 as [|a b r Hfirst' H2' Heq]; [done|]. subst.
    destruct (Hno (String.length a)). by exists a, b.
  - remember (a +:+ pat +:+ b) as s eqn:Hs in H2.
    destruct H2 as [s Hno|a' b' r' Hfirst' H2'].
    + subst s. destruct (Hno (String.length a)). by exists a, b.
    + assert (String.length a = String.length a') as Hlen.
      { apply Nat.le_antisymm.
        - apply Hfirst. rewrite <- Hs. by exists a', b'.
        - apply Hfirst'. rewrite Hs. by exists a, b. }
      destruct (append_same_length _ _ _ _ Hlen (eq_sym Hs)) as [-> Hrest].
      destruct (append_same_length pat pat b b' eq_refl Hrest) as [_ ->].
      f_equal. by apply IH.
Qed.

(** C1 (as amended): on a target that contains a colon the normalizer
    returns the part of the target before its first colon with every
    instance of [".<ns>"] removed, the instances being found from left to
    right and not overlapping; no other string is such a result. *)
Theorem C1_normalizer_removes_every_occurrence (ns target : string) :
  byte_in ":" target ->
  exists host rest r,
    target = host +:+ ":" +:+ rest /\
    ~ byte_in ":" host /\
    GetDefaultHostFromTargetFunc ns target = Ret r /\
    RemovedEvery ("." +:+ ns) host r /\
    (forall r', RemovedEvery ("." +:+ ns) host r' -> r' = r).
Proof.
  intros Hin. destruct (byte_in_split _ _ Hin) as (host & rest & -> & Hno).
  exists host, rest, (ReplaceAll host (Sprintf_dot_s ns) "").
  assert (Hrem : RemovedEvery ("." +:+ ns) host
                   (ReplaceAll host (Sprintf_dot_s ns) ""))
    by (by apply ReplaceAll_removes).
  split_and!; [done | done | | exact Hrem |].
  - unfold GetDefaultHostFromTargetFunc. by rewrite slice_at_first_byte.
  - intros r' Hr'. exact (RemovedEvery_functional _ _ _ _ Hr' Hrem).
Qed.

Lemma C1_normalizer_removes_every_occurrence_witness :
  exists host rest r,
    "a.ns.b.ns.c:80:90" = host +:+ ":" +:+ rest /\
    ~ byte_in ":" host /\
    GetDefaultHostFromTargetFunc "ns" "a.ns.b.ns.c:80:90" = Ret r /\
    RemovedEvery ("." +:+ "ns") host r /\
    (forall r', RemovedEvery ("." +:+ "ns") host r' -> r' = r).
Proof.
  apply (C1_normalizer_removes_every_occurrence "ns" "a.ns.b.ns.c:80:90").
  simpl. tauto.
Defined.

(** C1 as stated fails: with two instances of [".ns"] before the colon the
    normalizer removes both, whereas removing the first instance only
    would leave the second in place. *)
Lemma C1_first_occurrence_only_counterexample :
  byte_in ":" "a.ns.ns:80" /\
  GetDefaultHostFromTargetFunc "ns" "a.ns.ns:80" = Ret "a" /\
  remove_first ("." +:+ "ns") (before_first ":" "a.ns.ns:80") = "a.ns" /\
  GetDefaultHostFromTargetFunc "ns" "a.ns.ns:80"
  <> Ret (remove_first ("." +:+ "ns") (before_first ":" "a.ns.ns:80")).
Proof.
  split_and!; [simpl; tauto | by vm_compute | by vm_compute | by vm_compute].
Qed.

(** C8: for every namespace the normalizer returns on every target that
    contains a colon, and panics with a bounds error (the slice bound is
    [-1]) on every target that contains none. *)
Theorem C8_normalizer_returns_iff_colon (ns target : string) :
  (byte_in ":" target -> returns (GetDefaultHostFromTargetFunc ns target)) /\
  (~ byte_in ":" target ->
   GetDefaultHostFromTargetFunc ns target
   = Panic (BoundsError (-1) (len target))).
Proof.
  split.
  - intros Hin. destruct (byte_in_split _ _ Hin) as (host & rest & -> & Hno).
    unfold GetDefaultHostFromTargetFunc. rewrite slice_at_first_byte by done.
    by eexists.
  - intros Hno. unfold GetDefaultHostFromTargetFunc.
    by rewrite slice_without_byte.
Qed.

Lemma C8_normalizer_returns_iff_colon_witness :
  returns (GetDefaultHostFromTargetFunc "my-namespace.local"
             "my-service.my-namespace.local:3000") /\
  GetDefaultHostFromTargetFunc "my-namespace.local" "my-service"
  = Panic (BoundsError (-1) (len "my-service")).
Proof.
  split.
  - apply (C8_normalizer_returns_iff_colon "my-namespace.local"
             "my-service.my-namespace.local:3000").
    simpl. repeat (first [left; reflexivity | right]).
  - apply (C8_normalizer_returns_iff_colon "my-namespace.local" "my-service").
    simpl. intros H. repeat (destruct H as [H|H]; [discriminate|]). exact H.
Defined.

(** ** The interceptors *)

Section InterceptorFacts.

Context {Msg CallOption : Type}.
Context {backend : TracingBackend}.

(** Unfolds the computation down to pairs of outcome, store and trace. *)
Ltac run_steps :=
  unfold NewGrpcXrayUnaryServerInterceptor, NewGrpcXrayUnaryClientInterceptor,
    xray_Capture, defer, call_hostFromTarget, sn_Name,
    metadata_FromIncomingContext, metadata_AppendToOutgoingContext,
    peer_FromContext, header_FromString, index_at, xray_NewSegmentFromHeader,
    xray_BeginSubsegment, xray_GetSegment, seg_Lock, seg_Unlock, seg_Close,
    seg_SetRequest, seg_SetRequestMethod, seg_SetResponseStatus,
    seg_DownstreamHeader, call_handler, call_invoker, bind, emit, modify,
    lift, ret;
  cbn beta iota zeta delta [fst snd app allocSegment].

Lemma segments_updSegment f id st :
  segments (updSegment f id st) id = f (segments st id).
Proof. unfold updSegment. simpl. by rewrite Nat.eqb_refl. Qed.

Lemma responseStatusOf_written v err id st :
  responseStatusOf
    (updSegment (markClosed err) id (updSegment (setResponseStatus v) id st)) id
  = Some v.
Proof. unfold responseStatusOf. by rewrite !segments_updSegment. Qed.


(** *** The server interceptor, run symbolically *)

Lemma server_run_without_metadata {T} {namer : SegmentNamer T} (sn : T)
    ctx req info (handler : @UnaryHandler Msg) st :
  incomingMD ctx = None ->
  NewGrpcXrayUnaryServerInterceptor (CallOption:=CallOption) sn ctx req info
    handler st
  = ((Ret (None, Some (errorString "unable to read metadata")), st,
      [ESegmentNamer "only NewFixedSegmentNamer is supported";
       EFromIncomingContext])).
Proof. intros Hmd. run_steps. by rewrite Hmd. Qed.

Lemma server_run_with_metadata {T} {namer : SegmentNamer T} (sn : T)
    ctx md req info (handler : @UnaryHandler Msg) st :
  incomingMD ctx = Some md ->
  let ts := match md !! TraceIDHeaderKey with
            | Some (v :: _) => v
            | _ => ""
            end in
  let name := Name sn "only NewFixedSegmentNamer is supported" in
  let seg := nextSeg st in
  let ctx' := withSegment seg ctx in
  let rd := {| Method := GrpcMethod; URL := FullMethod info;
               ClientIP := match peerInfo ctx with
                           | Some p => AddrString (PeerAddr p)
                           | None => ""
                           end;
               UserAgent := CustomUserAgent;
               XForwardedFor := false; Traced := false |} in
  let st_pre :=
    updSegment (setRequest rd) seg
      (allocSegment {| SegName := name; IncomingHeader := Some (FromString ts);
                       ParentSegment := None; HTTP := None;
                       closedWith := [] |} st).2 in
  let pre := [ESegmentNamer "only NewFixedSegmentNamer is supported";
              EFromIncomingContext; EHeaderFromString ts;
              ENewSegmentFromHeader name (FromString ts) seg;
              ELock seg; EPeerFromContext; ESetRequest seg rd; EUnlock seg;
              EHandler ctx' req st_pre] in
  NewGrpcXrayUnaryServerInterceptor (CallOption:=CallOption) sn ctx req info
    handler st
  = (match handler ctx' req st_pre with
     | (Ret (resp, err), st1) =>
         (Ret (resp, err),
          updSegment (markClosed None) seg
            (updSegment (setResponseStatus (statusFor err)) seg st1),
          pre ++ [ELock seg; ESetResponseStatus seg (statusFor err);
                  EUnlock seg; EClose seg None])
     | (Panic p, st1) =>
         (Panic p, updSegment (markClosed None) seg st1,
          pre ++ [EClose seg None])
     end).
Proof.
  intros Hmd. run_steps. rewrite Hmd.
  destruct (md !! TraceIDHeaderKey) as [[|v l]|]; simpl;
    (destruct (handler _ _ _) as [[[resp [e|]]|p] st1]; reflexivity).
Qed.

(** *** The client interceptor, run symbolically *)

Lemma client_run_host_panics hostFromTarget ctx method req resp cc
    (invoker : @UnaryInvoker Msg CallOption) opts st p :
  hostFromTarget (Target cc) = Panic p ->
  NewGrpcXrayUnaryClientInterceptor hostFromTarget ctx method req resp cc
    invoker opts st
  = ((Panic p, st, [EHostFromTarget (Target cc)])).
Proof. intros Hhost. run_steps. by rewrite Hhost. Qed.

Lemma client_run_untraced hostFromTarget ctx method req resp cc
    (invoker : @UnaryInvoker Msg CallOption) opts st host :
  hostFromTarget (Target cc) = Ret host ->
  ctxSegment ctx = None ->
  NewGrpcXrayUnaryClientInterceptor hostFromTarget ctx method req resp cc
    invoker opts st
  = (((invoker ctx method req resp cc opts st).1,
      (invoker ctx method req resp cc opts st).2,
      [EHostFromTarget (Target cc); EBeginSubsegment host None;
       EGetSegment None; EInvoker ctx method req resp cc opts st])).
Proof.
  intros Hhost Hseg. run_steps. rewrite Hhost. simpl. rewrite Hseg. simpl.
  rewrite Hseg. simpl.
  by destruct (invoker _ _ _ _ _ _ _) as [[err|p] st1].
Qed.

Lemma client_run_traced hostFromTarget ctx method req resp cc
    (invoker : @UnaryInvoker Msg CallOption) opts st host parent :
  hostFromTarget (Target cc) = Ret host ->
  ctxSegment ctx = Some parent ->
  let seg := nextSeg st in
  let st_m :=
    updSegment (setRequestMethod GrpcMethod) seg
      (allocSegment {| SegName := host; IncomingHeader := None;
                       ParentSegment := Some parent; HTTP := None;
                       closedWith := [] |} st).2 in
  let value := HeaderString (DownstreamHeader st_m seg) in
  let ctx' := appendOutgoing TraceIDHeaderKey value (withSegment seg ctx) in
  let pre := [EHostFromTarget (Target cc); EBeginSubsegment host (Some seg);
              EGetSegment (Some seg); ELock seg;
              ESetRequestMethod seg GrpcMethod; EDownstreamHeader seg;
              EAppendToOutgoingContext TraceIDHeaderKey value; EUnlock seg;
              EInvoker ctx' method req resp cc opts st_m] in
  NewGrpcXrayUnaryClientInterceptor hostFromTarget ctx method req resp cc
    invoker opts st
  = (match invoker ctx' method req resp cc opts st_m with
     | (Ret err, st1) =>
         (Ret err,
          updSegment (markClosed err) seg
            (updSegment (setResponseStatus (statusFor err)) seg st1),
          pre ++ [ELock seg; ESetResponseStatus seg (statusFor err);
                  EUnlock seg; EClose seg err])
     | (Panic p, st1) =>
         (Panic p, updSegment (markClosed (Some (panicError p))) seg st1,
          pre ++ [EClose seg (Some (panicError p))])
     end).
Proof.
  intros Hhost Hseg. run_steps. rewrite Hhost. simpl. rewrite Hseg. simpl.
  destruct (invoker _ _ _ _ _ _ _) as [[[e|]|p] st1]; reflexivity.
Qed.

(** *** Server interceptor *)

(** Runs the server interceptor symbolically: the two metadata cases,
    then the outcomes of the handler. *)
Ltac server_cases ctx handler :=
  let Hmd := fresh "Hmd" in
  let Hrun := fresh "Hrun" in
  destruct (incomingMD ctx) as [?md|] eqn:Hmd;
  [ match goal with
    | |- context [NewGrpcXrayUnaryServerInterceptor ?sn ctx ?req ?info handler ?st] =>
        pose proof (server_run_with_metadata sn ctx _ req info handler st Hmd)
          as Hrun;
        cbv zeta in Hrun;
        destruct (handler (withSegment (nextSeg st) ctx) req _)
          as [[[?resp ?err]|?p] ?st1] eqn:?Hh in Hrun;
        rewrite Hrun in *; clear Hrun
    end
  | match goal with
    | |- context [NewGrpcXrayUnaryServerInterceptor ?sn ctx ?req ?info handler ?st] =>
        rewrite (server_run_without_metadata sn ctx req info handler st Hmd) in *
    end ].

(** C3: when the incoming context carries no metadata the server
    interceptor returns a nil result and a non-nil error (the one made by
    [errors.New]) at once: the wrapped handler is not invoked, no segment is
    created, the store is left as it was. *)
Theorem C3_server_missing_metadata {T} {namer : SegmentNamer T} (sn : T)
    ctx (req : option Msg) info (handler : @UnaryHandler Msg) st :
  incomingMD ctx = None ->
  let run := NewGrpcXrayUnaryServerInterceptor (CallOption:=CallOption)
               sn ctx req info handler st in
  outcomeOf run = Ret (None, Some (errorString "unable to read metadata")) /\
  handlerCalls (traceOf run) = [] /\
  segmentsCreated (traceOf run) = [] /\
  traceOf run = [ESegmentNamer "only NewFixedSegmentNamer is supported";
                 EFromIncomingContext] /\
  storeOf run = st.
Proof.
  intros Hmd run. subst run.
  rewrite (server_run_without_metadata sn ctx req info handler st Hmd).
  split_and!; reflexivity.
Qed.

(** C2 (as amended): when the wrapped handler returns a non-nil error,
    the created segment's response status is set to 400 and the
    interceptor returns that same error together with the result value
    the handler returned, unchanged (nil exactly when the handler
    returned nil). *)
Theorem C2_server_handler_error {T} {namer : SegmentNamer T} (sn : T)
    ctx (req : option Msg) info (handler : @UnaryHandler Msg) st
    c r s resp e st1 :
  let run := NewGrpcXrayUnaryServerInterceptor (CallOption:=CallOption)
               sn ctx req info handler st in
  handlerCalls (traceOf run) = [(c, r, s)] ->
  handler c r s = (Ret (resp, Some e), st1) ->
  exists seg,
    segmentsCreated (traceOf run) = [seg] /\
    statusWrites (traceOf run) = [(seg, 400)] /\
    responseStatusOf (storeOf run) seg = Some 400 /\
    outcomeOf run = Ret (resp, Some e).
Proof.
  intros run Hcall Hret. subst run. server_cases ctx handler;
    simpl in Hcall; try discriminate;
    injection Hcall as <- <- <-;
    pose proof (eq_trans (eq_sym Hh) Hret) as E; try discriminate E;
    injection E as -> -> ->.
  eexists. split_and!; [reflexivity | reflexivity | | reflexivity].
  apply responseStatusOf_written.
Qed.

(** C6: with a metadata mapping present, the string the server parses
    into the trace header of the new segment is the first value under
    the trace-header key when the key is present with a non-empty list,
    and the empty string when the key is absent or its list is empty. *)
Theorem C6_server_trace_string {T} {namer : SegmentNamer T} (sn : T)
    ctx md (req : option Msg) info (handler : @UnaryHandler Msg) st :
  incomingMD ctx = Some md ->
  let run := NewGrpcXrayUnaryServerInterceptor (CallOption:=CallOption)
               sn ctx req info handler st in
  exists ts seg,
    headerParses (traceOf run) = [ts] /\
    newSegmentCalls (traceOf run)
    = [(Name sn "only NewFixedSegmentNamer is supported", FromString ts, seg)] /\
    (forall v l, md !! TraceIDHeaderKey = Some (v :: l) -> ts = v) /\
    (md !! TraceIDHeaderKey = Some [] -> ts = "") /\
    (md !! TraceIDHeaderKey = None -> ts = "").
Proof.
  intros Hmd run. subst run. server_cases ctx handler; [| |discriminate];
    injection Hmd as ->;
    (eexists _, _; split_and!; [reflexivity | reflexivity | | |]);
    try (intros v l Hk); try (intros Hk); by rewrite Hk.
Qed.



(** *** Client interceptor *)

(** Runs the client interceptor symbolically: the host mapping panics
    or returns; the context has a segment or none; the invoker returns
    or panics. *)
Ltac client_cases hostFromTarget ctx cc invoker :=
  let Hhost := fresh "Hhost" in
  let Hseg := fresh "Hseg" in
  let Hrun := fresh "Hrun" in
  destruct (hostFromTarget (Target cc)) as [?host|?p] eqn:Hhost;
  [ destruct (ctxSegment ctx) as [?parent|] eqn:Hseg;
    [ match goal with
      | |- context [NewGrpcXrayUnaryClientInterceptor hostFromTarget ctx
                      ?method ?req ?resp cc invoker ?opts ?st] =>
          pose proof (client_run_traced hostFromTarget ctx method req resp
                        cc invoker opts st _ _ Hhost Hseg) as Hrun;
          cbv zeta in Hrun;
          destruct (invoker (appendOutgoing _ _ _) method req resp cc opts _)
            as [[?err|?p] ?st1] eqn:?Hinv in Hrun;
          rewrite Hrun in *; clear Hrun
      end
    | match goal with
      | |- context [NewGrpcXrayUnaryClientInterceptor hostFromTarget ctx
                      ?method ?req ?resp cc invoker ?opts ?st] =>
          rewrite (client_run_untraced hostFromTarget ctx method req resp
                     cc invoker opts st _ Hhost Hseg) in *
      end ]
  | match goal with
    | |- context [NewGrpcXrayUnaryClientInterceptor hostFromTarget ctx
                    ?method ?req ?resp cc invoker ?opts ?st] =>
        rewrite (client_run_host_panics hostFromTarget ctx method req resp
                   cc invoker opts st _ Hhost) in *
    end ].

(** C4: on a context without an active segment, and once the host
    mapping has returned, the client interceptor invokes the wrapped call
    once, with the context, the arguments and the store as it received
    them, and returns the error the call returns, unchanged. It injects no
    metadata, writes no request method and no response status, and
    creates and closes no segment. *)
Theorem C4_client_untraced (hostFromTarget : string -> Outcome string)
    ctx method (req resp : option Msg) cc
    (invoker : @UnaryInvoker Msg CallOption) opts st host :
  ctxSegment ctx = None ->
  hostFromTarget (Target cc) = Ret host ->
  let run := NewGrpcXrayUnaryClientInterceptor hostFromTarget ctx method
               req resp cc invoker opts st in
  invokerCalls (traceOf run) = [(ctx, method, req, resp, cc, opts, st)] /\
  (forall err st1,
     invoker ctx method req resp cc opts st = (Ret err, st1) ->
     outcomeOf run = Ret err /\ storeOf run = st1) /\
  metadataInjections (traceOf run) = [] /\
  methodWrites (traceOf run) = [] /\
  statusWrites (traceOf run) = [] /\
  segmentsCreated (traceOf run) = [] /\
  closeCalls (traceOf run) = [].
Proof.
  intros Hseg Hhost run. subst run.
  rewrite (client_run_untraced _ _ _ _ _ _ _ _ _ _ Hhost Hseg).
  split_and!; try reflexivity.
  intros err st1 Hinv. unfold outcomeOf, storeOf. simpl. by rewrite Hinv.
Qed.

(** C10: the client interceptor applies [hostFromTarget] to the
    connection's target exactly once, as its first step, hence before it
    looks for an active segment. When the mapping panics the interceptor
    panics with it, without looking for a segment and without invoking
    the wrapped call, whether or not the context has a segment; the
    default normalizer does so on every target without a colon. *)
Theorem C10_client_host_mapping_first (hostFromTarget : string -> Outcome string)
    ctx method (req resp : option Msg) cc
    (invoker : @UnaryInvoker Msg CallOption) opts st :
  let run := NewGrpcXrayUnaryClientInterceptor hostFromTarget ctx method
               req resp cc invoker opts st in
  hostFromTargetCalls (traceOf run) = [Target cc] /\
  head (traceOf run) = Some (EHostFromTarget (Target cc)) /\
  (forall p, hostFromTarget (Target cc) = Panic p ->
     outcomeOf run = Panic p /\
     storeOf run = st /\
     segmentChecks (traceOf run) = [] /\
     invokerCalls (traceOf run) = []) /\
  (forall ns, ~ byte_in ":" (Target cc) ->
     let run' := NewGrpcXrayUnaryClientInterceptor
                   (GetDefaultHostFromTargetFunc ns) ctx method req resp cc
                   invoker opts st in
     outcomeOf run' = Panic (BoundsError (-1) (len (Target cc))) /\
     segmentChecks (traceOf run') = [] /\
     invokerCalls (traceOf run') = []).
Proof.
  intros run. subst run. split_and!.
  - client_cases hostFromTarget ctx cc invoker; reflexivity.
  - client_cases hostFromTarget ctx cc invoker; reflexivity.
  - intros p Hp.
    rewrite (client_run_host_panics _ _ _ _ _ _ _ _ _ _ Hp). done.
  - intros ns Hno run'. subst run'.
    assert (GetDefaultHostFromTargetFunc ns (Target cc)
            = Panic (BoundsError (-1) (len (Target cc)))) as Hp.
    { unfold GetDefaultHostFromTargetFunc. by rewrite slice_without_byte. }
    rewrite (client_run_host_panics _ _ _ _ _ _ _ _ _ _ Hp). done.
Qed.

(** C5: in a run of either interceptor in which a segment exists and the
    wrapped call has returned, the response status of the segment is
    400 when the returned error is not nil and 200 when it is nil (the
    error's nil-ness decides alone: [statusFor] reads nothing else), the
    status is written exactly once, and no run of either
    interceptor ever writes a status other than 200 or 400. *)
Theorem C5_status_from_error_nilness :
  (forall T (namer : SegmentNamer T) (sn : T) ctx (req : option Msg) info
          (handler : @UnaryHandler Msg) st c r s resp err st1,
     let run := NewGrpcXrayUnaryServerInterceptor (CallOption:=CallOption)
                  sn ctx req info handler st in
     handlerCalls (traceOf run) = [(c, r, s)] ->
     handler c r s = (Ret (resp, err), st1) ->
     exists seg,
       segmentsCreated (traceOf run) = [seg] /\
       statusWrites (traceOf run) = [(seg, statusFor err)] /\
       responseStatusOf (storeOf run) seg = Some (statusFor err)) /\
  (forall (hostFromTarget : string -> Outcome string) ctx method
          (req resp : option Msg) cc (invoker : @UnaryInvoker Msg CallOption)
          opts st seg c m rq rp cc' o s err st1,
     let run := NewGrpcXrayUnaryClientInterceptor hostFromTarget ctx method
                  req resp cc invoker opts st in
     segmentChecks (traceOf run) = [Some seg] ->
     invokerCalls (traceOf run) = [(c, m, rq, rp, cc', o, s)] ->
     invoker c m rq rp cc' o s = (Ret err, st1) ->
     statusWrites (traceOf run) = [(seg, statusFor err)] /\
     responseStatusOf (storeOf run) seg = Some (statusFor err)) /\
  (forall err, (err <> None -> statusFor err = 400) /\
               (err = None -> statusFor err = 200)) /\
  (forall T (namer : SegmentNamer T) (sn : T) ctx (req : option Msg) info
          (handler : @UnaryHandler Msg) st seg v,
     (seg, v) ∈ statusWrites
                  (traceOf (NewGrpcXrayUnaryServerInterceptor
                              (CallOption:=CallOption) sn ctx req info
                              handler st)) ->
     v = 200 \/ v = 400) /\
  (forall (hostFromTarget : string -> Outcome string) ctx method
          (req resp : option Msg) cc (invoker : @UnaryInvoker Msg CallOption)
          opts st seg v,
     (seg, v) ∈ statusWrites
                  (traceOf (NewGrpcXrayUnaryClientInterceptor hostFromTarget
                              ctx method req resp cc invoker opts st)) ->
     v = 200 \/ v = 400).
Proof.
  split_and!.
  - intros T namer sn ctx req info handler st c r s resp err st1 run Hcall Hret.
    subst run. server_cases ctx handler;
      simpl in Hcall; try discriminate;
      injection Hcall as <- <- <-;
      pose proof (eq_trans (eq_sym Hh) Hret) as E; try discriminate E;
      injection E as -> -> ->.
    eexists. split_and!; [reflexivity | reflexivity |].
    apply responseStatusOf_written.
  - intros hostFromTarget ctx method req resp cc invoker opts st seg
      c m rq rp cc' o s err st1 run Hcheck Hcall Hret.
    subst run. client_cases hostFromTarget ctx cc invoker;
      simpl in Hcheck; try discriminate;
      injection Hcheck as <-;
      simpl in Hcall; injection Hcall as <- <- <- <- <- <- <-;
      pose proof (eq_trans (eq_sym Hinv) Hret) as E; try discriminate E;
      injection E as -> ->.
    split; [reflexivity | apply responseStatusOf_written].
  - intros [e|]; split; intros Herr; done.
  - intros T namer sn ctx req info handler st seg v Hin.
    revert Hin. server_cases ctx handler; intros Hin; simpl in Hin;
      repeat (apply elem_of_cons in Hin as [Hin|Hin]);
      try (by apply elem_of_nil in Hin);
      injection Hin as -> ->; destruct err; simpl; lia.
  - intros hostFromTarget ctx method req resp cc invoker opts st seg v Hin.
    revert Hin. client_cases hostFromTarget ctx cc invoker; intros Hin;
      simpl in Hin;
      repeat (apply elem_of_cons in Hin as [Hin|Hin]);
      try (by apply elem_of_nil in Hin);
      injection Hin as -> ->; destruct err; simpl; lia.
Qed.

End InterceptorFacts.

(** ** The theorems at work on the sample collaborators *)

Lemma C2_server_handler_error_witness :
  let run := Sample.server Sample.serverCtx (Some "req") Sample.info
               Sample.failingHandler Sample.store in
  exists seg,
    segmentsCreated (traceOf run) = [seg] /\
    statusWrites (traceOf run) = [(seg, 400)] /\
    responseStatusOf (storeOf run) seg = Some 400 /\
    outcomeOf run = Ret (Some "partial", Some Sample.notFound).
Proof.
  intros run.
  eapply (C2_server_handler_error (Msg:=string) (CallOption:=unit)
            (backend:=Sample.backend) (NewFixedSegmentNamer "svc")
            Sample.serverCtx (Some "req") Sample.info Sample.failingHandler
            Sample.store).
  - reflexivity.
  - reflexivity.
Defined.

(** C2 as stated fails: a handler may return a reply together with its
    error; the interceptor then returns that reply, not nil, with the
    error. *)
Lemma C2_nil_result_counterexample :
  let run := Sample.server Sample.serverCtx (Some "req") Sample.info
               Sample.failingHandler Sample.store in
  (exists c r s,
     handlerCalls (traceOf run) = [(c, r, s)] /\
     Sample.failingHandler c r s
     = (Ret (Some "partial", Some Sample.notFound), s)) /\
  outcomeOf run = Ret (Some "partial", Some Sample.notFound) /\
  ~ (exists e, outcomeOf run = Ret (None, Some e)).
Proof.
  intros run. split_and!.
  - eexists _, _, _. split; reflexivity.
  - reflexivity.
  - intros [e He]. vm_compute in He. discriminate He.
Qed.

Lemma C3_server_missing_metadata_witness :
  let run := Sample.server Sample.bareCtx (Some "req") Sample.info
               Sample.echoHandler Sample.store in
  incomingMD Sample.bareCtx = None /\
  outcomeOf run = Ret (None, Some (errorString "unable to read metadata")) /\
  handlerCalls (traceOf run) = [] /\
  segmentsCreated (traceOf run) = [] /\
  traceOf run = [ESegmentNamer "only NewFixedSegmentNamer is supported";
                 EFromIncomingContext] /\
  storeOf run = Sample.store.
Proof.
  intros run. split; [reflexivity|].
  apply (C3_server_missing_metadata (Msg:=string) (CallOption:=unit)
           (backend:=Sample.backend) (NewFixedSegmentNamer "svc")
           Sample.bareCtx (Some "req") Sample.info Sample.echoHandler
           Sample.store).
  reflexivity.
Defined.

Lemma C4_client_untraced_witness :
  let run := Sample.client (GetDefaultHostFromTargetFunc "ns") Sample.bareCtx
               "/pkg.Service/Get" (Some "req") None Sample.conn
               Sample.failingInvoker [] Sample.store in
  ctxSegment Sample.bareCtx = None /\
  GetDefaultHostFromTargetFunc "ns" (Target Sample.conn) = Ret "svc.local" /\
  invokerCalls (traceOf run)
  = [(Sample.bareCtx, "/pkg.Service/Get", Some "req", None, Sample.conn, [],
      Sample.store)] /\
  outcomeOf run = Ret (Some Sample.notFound) /\
  metadataInjections (traceOf run) = [] /\
  methodWrites (traceOf run) = [] /\
  statusWrites (traceOf run) = [].
Proof.
  intros run.
  assert (Hhost : GetDefaultHostFromTargetFunc "ns" (Target Sample.conn)
                  = Ret "svc.local") by (vm_compute; reflexivity).
  destruct (C4_client_untraced (Msg:=string) (CallOption:=unit)
              (backend:=Sample.backend) (GetDefaultHostFromTargetFunc "ns")
              Sample.bareCtx "/pkg.Service/Get" (Some "req") None Sample.conn
              Sample.failingInvoker [] Sample.store "svc.local"
              eq_refl Hhost)
    as (Hcall & Hout & Hinj & Hmeth & Hstat & _).
  split_and!; [reflexivity | exact Hhost | exact Hcall
              | exact (proj1 (Hout _ _ eq_refl))
              | exact Hinj | exact Hmeth | exact Hstat].
Defined.

Lemma C5_status_from_error_nilness_witness :
  (let run := Sample.server Sample.serverCtx (Some "req") Sample.info
                Sample.echoHandler Sample.store in
   exists seg,
     segmentsCreated (traceOf run) = [seg] /\
     statusWrites (traceOf run) = [(seg, 200)] /\
     responseStatusOf (storeOf run) seg = Some 200) /\
  (let run := Sample.client Ret Sample.tracedCtx "/pkg.Service/Get"
                (Some "req") None Sample.conn Sample.failingInvoker []
                Sample.tracedStore in
   segmentChecks (traceOf run) = [Some 1%nat] /\
   statusWrites (traceOf run) = [(1%nat, 400)] /\
   responseStatusOf (storeOf run) 1%nat = Some 400).
Proof.
  destruct (C5_status_from_error_nilness (Msg:=string) (CallOption:=unit)
              (backend:=Sample.backend)) as (Hserver & Hclient & _).
  split.
  - intros run.
    eapply (Hserver _ _ (NewFixedSegmentNamer "svc") Sample.serverCtx
              (Some "req") Sample.info Sample.echoHandler Sample.store
              _ _ _ (Some "req") None); reflexivity.
  - intros run. split; [reflexivity|].
    eapply (Hclient Ret Sample.tracedCtx "/pkg.Service/Get" (Some "req") None
              Sample.conn Sample.failingInvoker [] Sample.tracedStore 1%nat
              _ _ _ _ _ _ _ (Some Sample.notFound)); reflexivity.
Defined.

Lemma C6_server_trace_string_witness :
  let run := Sample.server Sample.serverCtx (Some "req") Sample.info
               Sample.echoHandler Sample.store in
  exists md ts seg,
    incomingMD Sample.serverCtx = Some md /\
    md !! TraceIDHeaderKey = Some ["Root=1-5e1b4151"; "Root=2"] /\
    headerParses (traceOf run) = [ts] /\
    newSegmentCalls (traceOf run) = [("svc", Sample.header ts, seg)] /\
    ts = "Root=1-5e1b4151".
Proof.
  intros run.
  destruct (C6_server_trace_string (Msg:=string) (CallOption:=unit)
              (backend:=Sample.backend) (NewFixedSegmentNamer "svc")
              Sample.serverCtx _ (Some "req") Sample.info Sample.echoHandler
              Sample.store eq_refl)
    as (ts & seg & Hparse & Hnew & Hfirst & _ & _).
  eexists _, ts, seg.
  split_and!; [reflexivity | reflexivity | exact Hparse | exact Hnew |].
  eapply Hfirst. reflexivity.
Defined.



Lemma C10_client_host_mapping_first_witness :
  let cc := {| Target := "svc" |} in
  let run := Sample.client (GetDefaultHostFromTargetFunc "ns") Sample.bareCtx
               "/pkg.Service/Get" (Some "req") None cc Sample.failingInvoker []
               Sample.store in
  ~ byte_in ":" (Target cc) /\
  ctxSegment Sample.bareCtx = None /\
  hostFromTargetCalls (traceOf run) = ["svc"] /\
  outcomeOf run = Panic (BoundsError (-1) 3) /\
  segmentChecks (traceOf run) = [] /\
  invokerCalls (traceOf run) = [].
Proof.
  intros cc run.
  assert (Hno : ~ byte_in ":" (Target cc)).
  { simpl. intros H. repeat (destruct H as [H|H]; [discriminate|]). exact H. }
  destruct (C10_client_host_mapping_first (Msg:=string) (CallOption:=unit)
              (backend:=Sample.backend) (GetDefaultHostFromTargetFunc "ns")
              Sample.bareCtx "/pkg.Service/Get" (Some "req") None cc
              Sample.failingInvoker [] Sample.store)
    as (Hcalls & _ & _ & Hdefault).
  destruct (Hdefault "ns" Hno) as (Hout & Hcheck & Hinv).
  split_and!; [exact Hno | reflexivity | exact Hcalls | exact Hout
              | exact Hcheck | exact Hinv].
Defined.


(** * Further properties *)

(** ** The target normalizer on particular shapes of target *)

Section NormalizerFacts.

#[local] Arguments String.append !_ _ / : simpl nomatch.

Lemma normalizer_run (ns host rest : string) :
  ~ byte_in ":" host ->
  GetDefaultHostFromTargetFunc ns (host +:+ ":" +:+ rest)
  = Ret (ReplaceAll host ("." +:+ ns) "").
Proof.
  intros Hno. unfold GetDefaultHostFromTargetFunc.
  change (host +:+ ":" +:+ rest) with (host +:+ String ":" rest).
  by rewrite slice_at_first_byte.
Qed.

Lemma normalizer_returns_split (ns target r : string) :
  GetDefaultHostFromTargetFunc ns target = Ret r ->
  exists host rest,
    target = host +:+ ":" +:+ rest /\ ~ byte_in ":" host /\
    r = ReplaceAll host ("." +:+ ns) "".
Proof.
  intros Hret.
  destruct (indexByteFrom_cases target ":" 0 ltac:(lia))
    as [[_ Hno]|(host & rest & -> & Hno & _)].
  - unfold GetDefaultHostFromTargetFunc in Hret.
    by rewrite slice_without_byte in Hret.
  - exists host, rest. split_and!; [done | done |].
    pose proof (eq_trans (eq_sym (normalizer_run ns host rest Hno)) Hret) as E.
    by injection E.
Qed.

Lemma byte_in_app c a b : byte_in c (a +:+ b) <-> byte_in c a \/ byte_in c b.
Proof. induction a as [|x a IH]; simpl; tauto. Qed.

Lemma RemovedEvery_bytes pat s r c :
  RemovedEvery pat s r -> byte_in c r -> byte_in c s.
Proof.
  induction 1 as [s _|a b r _ _ IH]; [done|].
  rewrite !byte_in_app. tauto.
Qed.

Lemma occurs_at_bytes pat s n c :
  occurs_at pat s n -> byte_in c pat -> byte_in c s.
Proof. intros (a & b & -> & _) Hin. rewrite !byte_in_app. tauto. Qed.

Lemma RemovedEvery_single_free c s r :
  RemovedEvery (String c "") s r -> ~ byte_in c r.
Proof.
  induction 1 as [s Hno|a b r Hfirst _ IH].
  - intros Hin. destruct (byte_in_occurs c s "" Hin) as (n & _ & Hocc).
    rewrite append_empty_r in Hocc. by apply (Hno n).
  - rewrite byte_in_app. intros [Hin|Hin]; [|done].
    destruct (byte_in_occurs c a (String c "" +:+ b) Hin) as (n & Hn & Hocc).
    apply Hfirst in Hocc. lia.
Qed.

Lemma Index_absent s pat : Index s pat = -1 -> no_occurrence pat s.
Proof.
  intros Hi. destruct (Index_cases s pat) as [[_ Hno]|(a & _ & _ & _ & Ha)];
    [done|]. pose proof (len_nonneg a). lia.
Qed.

Lemma Index_first s pat (k : nat) :
  Index s pat = Z.of_nat k -> forall n, occurs_at pat s n -> (k <= n)%nat.
Proof.
  intros Hi n Hocc.
  destruct (Index_cases s pat) as [[Hneg _]|(a & _ & _ & Hfirst & Ha)]; [lia|].
  apply Hfirst in Hocc. unfold len in Ha. lia.
Qed.

Lemma replaceLoop_length pat fuel s first :
  pat <> "" ->
  (String.length s < fuel)%nat ->
  len (replaceLoop (Z.to_nat (countLoop fuel s pat)) first s pat "")
  = len s - countLoop fuel s pat * len pat.
Proof.
  intros Hne. revert s first.
  induction fuel as [|fuel IH]; intros s first Hlen; [lia|].
  cbn [countLoop].
  destruct (Index_cases s pat) as [[Hi Hno]|(a & b & -> & Hfirst & Hi)];
    rewrite Hi.
  - simpl. lia.
  - pose proof (len_nonneg a).
    destruct (Z.eqb_spec (len a) (-1)) as [?|_]; [lia|].
    rewrite drop_behind.
    pose proof (countLoop_nonneg fuel b pat).
    rewrite Z2Nat.inj_add, (Z2Nat.inj_pos 1) by lia.
    change (Pos.to_nat 1) with 1%nat. cbn [Nat.add replaceLoop].
    assert (Hj : match pat with
                 | EmptyString => if first then 0%nat
                                  else DecodeRuneSize (a +:+ pat +:+ b)
                 | String _ _ => Z.to_nat (Index (a +:+ pat +:+ b) pat)
                 end = String.length a).
    { destruct pat; [done|]. rewrite Hi. unfold len. apply Nat2Z.id. }
    rewrite Hj, str_take_app, str_drop_app, str_drop_all_app.
    simpl. rewrite !len_append, IH.
    + lia.
    + rewrite !length_append' in Hlen. destruct pat; [done|]. simpl in Hlen. lia.
Qed.

Lemma ReplaceAll_length s pat :
  pat <> "" ->
  len (ReplaceAll s pat "") = len s - Count s pat * len pat.
Proof.
  intros Hne. unfold ReplaceAll, Replace.
  assert (String.eqb pat "" = false) as -> by (by apply String.eqb_neq).
  simpl. rewrite (Count_countLoop s pat Hne).
  pose proof (replaceLoop_length pat (S (String.length s)) s true Hne ltac:(lia))
    as Hlen.
  destruct (Z.eqb_spec (countLoop (S (String.length s)) s pat) 0) as [Hz|_].
  - rewrite Hz in Hlen. simpl in Hlen. lia.
  - exact Hlen.
Qed.

(** X1: when [".<ns>"] does not occur in the part of the target before
    its first colon, the normalizer returns that part as it is. *)
Theorem normalizer_without_namespace (ns host rest : string) :
  ~ byte_in ":" host ->
  no_occurrence ("." +:+ ns) host ->
  GetDefaultHostFromTargetFunc ns (host +:+ ":" +:+ rest) = Ret host.
Proof.
  intros Hcolon Hno. rewrite normalizer_run by done. f_equal.
  apply (RemovedEvery_functional ("." +:+ ns) host).
  - by apply ReplaceAll_removes.
  - by apply RemovedEvery_none.
Qed.

Lemma normalizer_without_namespace_witness :
  GetDefaultHostFromTargetFunc "ns" ("svc.other.local" +:+ ":" +:+ "443")
  = Ret "svc.other.local".
Proof.
  apply normalizer_without_namespace.
  - simpl. intros H. repeat (destruct H as [H|H]; [discriminate|]). exact H.
  - apply Index_absent. vm_compute. reflexivity.
Defined.

(** X2: when [".<ns>"] occurs exactly once before the first colon, as in
    ["host.part.<ns>.tld:port"], the normalizer returns what stands before
    the instance followed by what stands behind it, up to the colon. *)
Theorem normalizer_single_occurrence (ns a b rest : string) :
  ~ byte_in ":" (a +:+ ("." +:+ ns) +:+ b) ->
  (forall n, occurs_at ("." +:+ ns) (a +:+ ("." +:+ ns) +:+ b) n ->
             (String.length a <= n)%nat) ->
  no_occurrence ("." +:+ ns) b ->
  GetDefaultHostFromTargetFunc ns ((a +:+ ("." +:+ ns) +:+ b) +:+ ":" +:+ rest)
  = Ret (a +:+ b).
Proof.
  intros Hcolon Hfirst Hno. rewrite normalizer_run by done. f_equal.
  apply (RemovedEvery_functional ("." +:+ ns) (a +:+ ("." +:+ ns) +:+ b)).
  - by apply ReplaceAll_removes.
  - apply RemovedEvery_next; [done|]. by apply RemovedEvery_none.
Qed.

Lemma normalizer_single_occurrence_witness :
  GetDefaultHostFromTargetFunc "ns"
    (("host.part" +:+ ("." +:+ "ns") +:+ ".tld") +:+ ":" +:+ "8080")
  = Ret ("host.part" +:+ ".tld").
Proof.
  apply normalizer_single_occurrence.
  - simpl. intros H. repeat (destruct H as [H|H]; [discriminate|]). exact H.
  - apply (Index_first _ _ 9). vm_compute. reflexivity.
  - apply Index_absent. vm_compute. reflexivity.
Defined.

(** X3: whatever the normalizer returns contains no colon, and every byte
    of it is a byte of the target: nothing is added. *)
Theorem normalizer_result_bytes (ns target r : string) :
  GetDefaultHostFromTargetFunc ns target = Ret r ->
  ~ byte_in ":" r /\ forall c, byte_in c r -> byte_in c target.
Proof.
  intros Hret.
  destruct (normalizer_returns_split ns target r Hret)
    as (host & rest & -> & Hno & ->).
  assert (Hsub : forall c, byte_in c (ReplaceAll host ("." +:+ ns) "") ->
                           byte_in c host).
  { intros c. apply (RemovedEvery_bytes ("." +:+ ns)).
    by apply ReplaceAll_removes. }
  split.
  - intros Hin. by apply Hno, Hsub.
  - intros c Hin. apply byte_in_app. left. by apply Hsub.
Qed.

Lemma normalizer_result_bytes_witness :
  ~ byte_in ":" "my-service" /\
  forall c, byte_in c "my-service" ->
            byte_in c "my-service.my-namespace.local:3000".
Proof.
  apply (normalizer_result_bytes "my-namespace.local"
           "my-service.my-namespace.local:3000" "my-service").
  vm_compute. reflexivity.
Defined.

(** X4: the normalizer's result is shorter than the part before the first
    colon by the length of [".<ns>"] for each of its instances counted by
    [strings.Count]; it is never longer than that part. *)
Theorem normalizer_result_length (ns target r : string) :
  GetDefaultHostFromTargetFunc ns target = Ret r ->
  exists host rest,
    target = host +:+ ":" +:+ rest /\ ~ byte_in ":" host /\
    len r = len host - Count host ("." +:+ ns) * len ("." +:+ ns) /\
    len r <= len host.
Proof.
  intros Hret.
  destruct (normalizer_returns_split ns target r Hret)
    as (host & rest & -> & Hno & ->).
  exists host, rest. split_and!; [done | done | by apply ReplaceAll_length |].
  rewrite ReplaceAll_length by done.
  rewrite (Count_countLoop host ("." +:+ ns)) by done.
  pose proof (countLoop_nonneg (S (String.length host)) host ("." +:+ ns)).
  pose proof (len_nonneg ("." +:+ ns)). nia.
Qed.

Lemma normalizer_result_length_witness :
  exists host rest,
    "a.ns.b.ns.c:80" = host +:+ ":" +:+ rest /\ ~ byte_in ":" host /\
    len "a.b.c" = len host - Count host ("." +:+ "ns") * len ("." +:+ "ns") /\
    len "a.b.c" <= len host.
Proof.
  apply (normalizer_result_length "ns" "a.ns.b.ns.c:80" "a.b.c").
  vm_compute. reflexivity.
Defined.

(** X5: what follows the first colon of the target has no influence on
    the normalizer's result. *)
Theorem normalizer_ignores_port (ns host rest rest' : string) :
  ~ byte_in ":" host ->
  GetDefaultHostFromTargetFunc ns (host +:+ ":" +:+ rest)
  = GetDefaultHostFromTargetFunc ns (host +:+ ":" +:+ rest').
Proof. intros Hno. by rewrite !normalizer_run. Qed.

Lemma normalizer_ignores_port_witness :
  GetDefaultHostFromTargetFunc "ns" ("svc.ns.local" +:+ ":" +:+ "443")
  = GetDefaultHostFromTargetFunc "ns" ("svc.ns.local" +:+ ":" +:+ "80:x").
Proof.
  apply normalizer_ignores_port.
  simpl. intros H. repeat (destruct H as [H|H]; [discriminate|]). exact H.
Defined.

(** X6: with the empty namespace the pattern is ["."], and the normalizer
    returns a name without any dot. *)
Theorem normalizer_empty_namespace (target r : string) :
  GetDefaultHostFromTargetFunc "" target = Ret r -> ~ byte_in "." r.
Proof.
  intros Hret.
  destruct (normalizer_returns_split "" target r Hret)
    as (host & rest & -> & Hno & ->).
  apply (RemovedEvery_single_free "." host). by apply ReplaceAll_removes.
Qed.

Lemma normalizer_empty_namespace_witness : ~ byte_in "." "svcnslocal".
Proof.
  apply (normalizer_empty_namespace "svc.ns.local:443" "svcnslocal").
  vm_compute. reflexivity.
Defined.

(** X7: a namespace that itself contains a colon never matches, the part
    before the first colon having none: the normalizer then only strips
    the port. *)
Theorem normalizer_namespace_with_colon (ns host rest : string) :
  byte_in ":" ns ->
  ~ byte_in ":" host ->
  GetDefaultHostFromTargetFunc ns (host +:+ ":" +:+ rest) = Ret host.
Proof.
  intros Hns Hno. rewrite normalizer_run by done. f_equal.
  apply (RemovedEvery_functional ("." +:+ ns) host).
  - by apply ReplaceAll_removes.
  - apply RemovedEvery_none. intros n Hocc. apply Hno.
    apply (occurs_at_bytes _ _ _ ":" Hocc). simpl. tauto.
Qed.

Lemma normalizer_namespace_with_colon_witness :
  GetDefaultHostFromTargetFunc "local:3000" ("svc.local" +:+ ":" +:+ "3000")
  = Ret "svc.local".
Proof.
  apply normalizer_namespace_with_colon.
  - simpl. tauto.
  - simpl. intros H. repeat (destruct H as [H|H]; [discriminate|]). exact H.
Defined.

End NormalizerFacts.

(** ** The interceptors: what they pass on, what they write, their locks *)

Section InterceptorFurtherFacts.

Context {Msg CallOption : Type}.
Context {backend : TracingBackend}.

(** The paths of a server run: metadata present or not, and the handler's
    outcome. *)
Ltac server_paths ctx handler :=
  let Hmd := fresh "Hmd" in
  let Hrun := fresh "Hrun" in
  destruct (incomingMD ctx) as [?md|] eqn:Hmd;
  [ match goal with
    | |- context [NewGrpcXrayUnaryServerInterceptor ?sn ctx ?req ?info handler ?st] =>
        pose proof (server_run_with_metadata (CallOption:=CallOption) sn ctx _
                      req info handler st Hmd)
          as Hrun;
        cbv zeta in Hrun;
        destruct (handler (withSegment (nextSeg st) ctx) req _)
          as [[[?resp ?err]|?p] ?st1] eqn:?Hh in Hrun;
        rewrite Hrun in *; clear Hrun
    end
  | match goal with
    | |- context [NewGrpcXrayUnaryServerInterceptor ?sn ctx ?req ?info handler ?st] =>
        rewrite (server_run_without_metadata (CallOption:=CallOption) sn ctx
                   req info handler st Hmd) in *
    end ].

(** The paths of a client run: the host mapping's outcome, a segment in
    the context or none, and the invoker's outcome. *)
Ltac client_paths hostFromTarget ctx cc invoker :=
  let Hhost := fresh "Hhost" in
  let Hseg := fresh "Hseg" in
  let Hrun := fresh "Hrun" in
  destruct (hostFromTarget (Target cc)) as [?host|?p] eqn:Hhost;
  [ destruct (ctxSegment ctx) as [?parent|] eqn:Hseg;
    [ match goal with
      | |- context [NewGrpcXrayUnaryClientInterceptor hostFromTarget ctx
                      ?method ?req ?resp cc invoker ?opts ?st] =>
          pose proof (client_run_traced hostFromTarget ctx method req resp
                        cc invoker opts st _ _ Hhost Hseg) as Hrun;
          cbv zeta in Hrun;
          destruct (invoker (appendOutgoing _ _ _) method req resp cc opts _)
            as [[?err|?p] ?st1] eqn:?Hinv in Hrun;
          rewrite Hrun in *; clear Hrun
      end
    | match goal with
      | |- context [NewGrpcXrayUnaryClientInterceptor hostFromTarget ctx
                      ?method ?req ?resp cc invoker ?opts ?st] =>
          rewrite (client_run_untraced hostFromTarget ctx method req resp
                     cc invoker opts st _ Hhost Hseg) in *
      end ]
  | match goal with
    | |- context [NewGrpcXrayUnaryClientInterceptor hostFromTarget ctx
                    ?method ?req ?resp cc invoker ?opts ?st] =>
        rewrite (client_run_host_panics hostFromTarget ctx method req resp
                   cc invoker opts st _ Hhost) in *
    end ].

Lemma segments_updSegment_other f id st i :
  i <> id -> segments (updSegment f id st) i = segments st i.
Proof.
  intros Hne. unfold updSegment. simpl.
  by destruct (Nat.eqb_spec i id).
Qed.

(** X8: on a context with an active segment, the client interceptor
    invokes the wrapped call once, with the method, request, reply,
    connection and options it received and with a context that differs
    from its own in two points only: it carries the new subsegment, and
    its outgoing metadata has one more pair, at the end: the trace-header
    key with the string of the subsegment's downstream header. By then the
    request method of the subsegment is ["POST"]. *)
Theorem client_injects_trace_header (hostFromTarget : string -> Outcome string)
    ctx method (req resp : option Msg) cc
    (invoker : @UnaryInvoker Msg CallOption) opts st host parent :
  hostFromTarget (Target cc) = Ret host ->
  ctxSegment ctx = Some parent ->
  let run := NewGrpcXrayUnaryClientInterceptor hostFromTarget ctx method
               req resp cc invoker opts st in
  exists seg c s v,
    segmentsCreated (traceOf run) = [seg] /\
    invokerCalls (traceOf run) = [(c, method, req, resp, cc, opts, s)] /\
    metadataInjections (traceOf run) = [("x-amzn-trace-id", v)] /\
    v = HeaderString (DownstreamHeader s seg) /\
    outgoingKV c = outgoingKV ctx ++ [("x-amzn-trace-id", v)] /\
    incomingMD c = incomingMD ctx /\
    peerInfo c = peerInfo ctx /\
    ctxSegment c = Some seg /\
    methodWrites (traceOf run) = [(seg, "POST")] /\
    Method <$> requestOf s seg = Some "POST".
Proof.
  intros Hhost Hseg run. subst run.
  pose proof (client_run_traced hostFromTarget ctx method req resp cc invoker
                opts st host parent Hhost Hseg) as Hrun.
  cbv zeta in Hrun.
  destruct (invoker (appendOutgoing _ _ _) method req resp cc opts _)
    as [[err|p] st1] in Hrun; rewrite Hrun; clear Hrun;
    (eexists _, _, _, _; split_and!; try reflexivity;
     unfold requestOf; by rewrite segments_updSegment).
Qed.

(** X9: whenever the host mapping returns, the client interceptor invokes
    the wrapped call exactly once and returns the error that call returns,
    nil or not, unchanged: with or without an active segment. *)
Theorem client_returns_invoker_error (hostFromTarget : string -> Outcome string)
    ctx method (req resp : option Msg) cc
    (invoker : @UnaryInvoker Msg CallOption) opts st host :
  hostFromTarget (Target cc) = Ret host ->
  let run := NewGrpcXrayUnaryClientInterceptor hostFromTarget ctx method
               req resp cc invoker opts st in
  exists c s,
    invokerCalls (traceOf run) = [(c, method, req, resp, cc, opts, s)] /\
    forall err st1,
      invoker c method req resp cc opts s = (Ret err, st1) ->
      outcomeOf run = Ret err.
Proof.
  intros Hhost' run. subst run.
  client_paths hostFromTarget ctx cc invoker; try discriminate;
    (eexists _, _; split; [reflexivity|]); intros err' st1' Hret.
  - pose proof (eq_trans (eq_sym Hinv) Hret) as E. by injection E as -> _.
  - pose proof (eq_trans (eq_sym Hinv) Hret) as E. discriminate E.
  - unfold outcomeOf. simpl. by rewrite Hret.
Qed.

(** X10: used with the default normalizer on a target with a colon, the
    client interceptor names the subsegment it asks [xray.Capture] for
    after the part of the target before the first colon with every
    instance of [".<ns>"] removed, with or without an active segment. *)
Theorem client_names_subsegment_by_normalizer (ns host rest : string)
    ctx method (req resp : option Msg) cc
    (invoker : @UnaryInvoker Msg CallOption) opts st :
  Target cc = host +:+ ":" +:+ rest ->
  ~ byte_in ":" host ->
  let run := NewGrpcXrayUnaryClientInterceptor
               (GetDefaultHostFromTargetFunc ns) ctx method req resp cc
               invoker opts st in
  exists name,
    captureNames (traceOf run) = [name] /\
    RemovedEvery ("." +:+ ns) host name.
Proof.
  intros Htarget Hno run. subst run.
  assert (Hhost' : GetDefaultHostFromTargetFunc ns (Target cc)
                   = Ret (ReplaceAll host ("." +:+ ns) "")).
  { rewrite Htarget. unfold GetDefaultHostFromTargetFunc.
    change (host +:+ ":" +:+ rest) with (host +:+ String ":" rest).
    by rewrite slice_at_first_byte. }
  exists (ReplaceAll host ("." +:+ ns) ""). split.
  - destruct (ctxSegment ctx) as [parent|] eqn:Hseg.
    + pose proof (client_run_traced _ ctx method req resp cc invoker opts st
                    _ _ Hhost' Hseg) as Hrun.
      cbv zeta in Hrun.
      destruct (invoker (appendOutgoing _ _ _) method req resp cc opts _)
        as [[err|p] st1] in Hrun; rewrite Hrun; reflexivity.
    + rewrite (client_run_untraced _ ctx method req resp cc invoker opts st
                 _ Hhost' Hseg). reflexivity.
  - by apply ReplaceAll_removes.
Qed.


(** X12: every run of the client interceptor keeps the discipline of the
    segment mutex: it writes the request method, reads the downstream
    header and writes the response status with the mutex held, invokes the
    wrapped call with no mutex held, and holds none when it ends. *)
Theorem client_lock_discipline (hostFromTarget : string -> Outcome string)
    ctx method (req resp : option Msg) cc
    (invoker : @UnaryInvoker Msg CallOption) opts st :
  lockDiscipline
    (traceOf (NewGrpcXrayUnaryClientInterceptor hostFromTarget ctx method
                req resp cc invoker opts st)) []
  = Some [].
Proof.
  client_paths hostFromTarget ctx cc invoker; unfold traceOf, holds, release;
    repeat (progress (simpl; rewrite ?Nat.eqb_refl)); reflexivity.
Qed.

(** X13: around a handler that returns, the server interceptor changes
    nothing but its own segment, which sits at a fresh address: the
    handler starts from a store whose other segments are as they were, and
    in the final store they are as the handler left them. Of its own
    segment the interceptor changes, after the handler, the response
    status and the record of [Close] calls only: name, incoming header,
    parent, request data and content length stay as the handler left
    them. *)
Theorem server_writes_own_segment_only {T} {namer : SegmentNamer T} (sn : T)
    ctx (req : option Msg) info (handler : @UnaryHandler Msg) st
    c r s resp err st1 :
  let run := NewGrpcXrayUnaryServerInterceptor (CallOption:=CallOption)
               sn ctx req info handler st in
  handlerCalls (traceOf run) = [(c, r, s)] ->
  handler c r s = (Ret (resp, err), st1) ->
  exists seg,
    segmentsCreated (traceOf run) = [seg] /\
    seg = nextSeg st /\
    (forall i, i <> seg -> segments s i = segments st i) /\
    (forall i, i <> seg -> segments (storeOf run) i = segments st1 i) /\
    SegName (segments (storeOf run) seg) = SegName (segments st1 seg) /\
    IncomingHeader (segments (storeOf run) seg)
    = IncomingHeader (segments st1 seg) /\
    ParentSegment (segments (storeOf run) seg)
    = ParentSegment (segments st1 seg) /\
    requestOf (storeOf run) seg = Request (GetHTTP (segments st1 seg)) /\
    ContentLength (GetResponse (GetHTTP (segments (storeOf run) seg)))
    = ContentLength (GetResponse (GetHTTP (segments st1 seg))) /\
    closedWith (segments (storeOf run) seg)
    = closedWith (segments st1 seg) ++ [None].
Proof.
  intros run Hcall Hret. subst run. server_paths ctx handler;
    simpl in Hcall; try discriminate;
    injection Hcall as <- <- <-;
    pose proof (eq_trans (eq_sym Hh) Hret) as E; try discriminate E;
    injection E as -> -> ->.
  exists (nextSeg st). unfold storeOf, requestOf. simpl fst. simpl snd.
  split_and!; try reflexivity.
  - intros i Hne. rewrite segments_updSegment_other by done.
    simpl. by destruct (Nat.eqb_spec i (nextSeg st)).
  - intros i Hne. by rewrite !segments_updSegment_other.
  - by rewrite !segments_updSegment.
  - by rewrite !segments_updSegment.
  - by rewrite !segments_updSegment.
  - by rewrite !segments_updSegment.
  - by rewrite !segments_updSegment.
  - by rewrite !segments_updSegment.
Qed.

(** X14: the two interceptors agree on the metadata key. When the
    metadata a server run receives holds, under the key a client run has
    injected its value with, that value first, the server parses exactly
    the string the client has sent. *)
Theorem trace_header_key_agreement
    (hostFromTarget : string -> Outcome string)
    cctx method (creq cresp : option Msg) cc
    (invoker : @UnaryInvoker Msg CallOption) opts cst
    {T} {namer : SegmentNamer T} (sn : T)
    sctx md (sreq : option Msg) info (handler : @UnaryHandler Msg) sst
    k v l :
  let crun := NewGrpcXrayUnaryClientInterceptor hostFromTarget cctx method
                creq cresp cc invoker opts cst in
  let srun := NewGrpcXrayUnaryServerInterceptor (CallOption:=CallOption)
                sn sctx sreq info handler sst in
  metadataInjections (traceOf crun) = [(k, v)] ->
  incomingMD sctx = Some md ->
  md !! k = Some (v :: l) ->
  headerParses (traceOf srun) = [v].
Proof.
  intros crun srun Hinj Hmd Hk. subst crun srun.
  assert (k = TraceIDHeaderKey) as ->.
  { revert Hinj. client_paths hostFromTarget cctx cc invoker;
      intros Hinj; simpl in Hinj; try discriminate; by injection Hinj. }
  clear Hinj. server_paths sctx handler; [| |discriminate];
    injection Hmd as ->; rewrite Hk; reflexivity.
Qed.

(** X15: when the handler panics, the server interceptor panics with the
    same value; it writes no response status, so that the segment's status
    stays as the handler left it, and it still closes the segment once. *)
Theorem server_handler_panics {T} {namer : SegmentNamer T} (sn : T)
    ctx (req : option Msg) info (handler : @UnaryHandler Msg) st
    c r s p st1 :
  let run := NewGrpcXrayUnaryServerInterceptor (CallOption:=CallOption)
               sn ctx req info handler st in
  handlerCalls (traceOf run) = [(c, r, s)] ->
  handler c r s = (Panic p, st1) ->
  exists seg,
    segmentsCreated (traceOf run) = [seg] /\
    outcomeOf run = Panic p /\
    statusWrites (traceOf run) = [] /\
    responseStatusOf (storeOf run) seg = responseStatusOf st1 seg /\
    closeCalls (traceOf run) = [(seg, None)].
Proof.
  intros run Hcall Hret. subst run. server_paths ctx handler;
    simpl in Hcall; try discriminate;
    injection Hcall as <- <- <-;
    pose proof (eq_trans (eq_sym Hh) Hret) as E; try discriminate E;
    injection E as -> ->.
  eexists. split_and!; try reflexivity.
  unfold responseStatusOf, storeOf. simpl. by rewrite Nat.eqb_refl.
Qed.

End InterceptorFurtherFacts.

(** The discipline is not met by every trace: a handler called under a
    held mutex breaks it. *)
Lemma lockDiscipline_rejects_call_under_lock {Msg CallOption : Type}
    seg ctx (req : option Msg) st (t : list (@Event Msg CallOption)) :
  lockDiscipline (ELock seg :: EHandler ctx req st :: t) [] = None.
Proof. reflexivity. Qed.

Lemma client_injects_trace_header_witness :
  let run := Sample.client (GetDefaultHostFromTargetFunc "ns") Sample.tracedCtx
               "/pkg.Service/Get" (Some "req") None Sample.conn
               Sample.failingInvoker [] Sample.tracedStore in
  exists c s,
    invokerCalls (traceOf run)
    = [(c, "/pkg.Service/Get", Some "req", None, Sample.conn, [], s)] /\
    metadataInjections (traceOf run) = [("x-amzn-trace-id", "svc.local")] /\
    outgoingKV c = [("x-amzn-trace-id", "svc.local")] /\
    ctxSegment c = Some 1%nat /\
    Method <$> requestOf s 1%nat = Some "POST".
Proof.
  intros run.
  assert (Hhost : GetDefaultHostFromTargetFunc "ns" (Target Sample.conn)
                  = Ret "svc.local") by (vm_compute; reflexivity).
  destruct (client_injects_trace_header (Msg:=string) (CallOption:=unit)
              (backend:=Sample.backend) (GetDefaultHostFromTargetFunc "ns")
              Sample.tracedCtx "/pkg.Service/Get" (Some "req") None Sample.conn
              Sample.failingInvoker [] Sample.tracedStore "svc.local" 0%nat
              Hhost eq_refl)
    as (seg & c & s & v & Hseg & Hcall & Hinj & Hv & Hout & _ & _ & Hc & _ & Hm).
  assert (seg = 1%nat) as -> by (by injection Hseg).
  assert (v = "svc.local") as ->.
  { pose proof (eq_trans (eq_sym Hinj)
                  (eq_refl : metadataInjections (traceOf run)
                             = [("x-amzn-trace-id", "svc.local")])) as E.
    by injection E. }
  exists c, s. split_and!; [exact Hcall | exact Hinj | exact Hout | exact Hc
                           | exact Hm].
Defined.

Lemma client_returns_invoker_error_witness :
  outcomeOf (Sample.client Ret Sample.tracedCtx "/pkg.Service/Get"
               (Some "req") None Sample.conn Sample.failingInvoker []
               Sample.tracedStore)
  = Ret (Some Sample.notFound).
Proof.
  destruct (client_returns_invoker_error (Msg:=string) (CallOption:=unit)
              (backend:=Sample.backend) Ret Sample.tracedCtx
              "/pkg.Service/Get" (Some "req") None Sample.conn
              Sample.failingInvoker [] Sample.tracedStore _ eq_refl)
    as (c & s & _ & Hret).
  exact (Hret (Some Sample.notFound) s eq_refl).
Defined.

Lemma client_names_subsegment_by_normalizer_witness :
  exists name,
    captureNames
      (traceOf (Sample.client (GetDefaultHostFromTargetFunc "ns")
                  Sample.bareCtx "/pkg.Service/Get" (Some "req") None
                  Sample.conn Sample.failingInvoker [] Sample.store))
    = [name] /\
    RemovedEvery ("." +:+ "ns") "svc.ns.local" name.
Proof.
  apply (client_names_subsegment_by_normalizer (Msg:=string) (CallOption:=unit)
           (backend:=Sample.backend) "ns" "svc.ns.local" "443").
  - reflexivity.
  - simpl. intros H. repeat (destruct H as [H|H]; [discriminate|]). exact H.
Defined.

Lemma server_writes_own_segment_only_witness :
  let run := Sample.server Sample.serverCtx (Some "req") Sample.info
               Sample.failingHandler Sample.tracedStore in
  exists seg,
    segmentsCreated (traceOf run) = [seg] /\
    seg = 1%nat /\
    segments (storeOf run) 0%nat = segments Sample.tracedStore 0%nat /\
    closedWith (segments (storeOf run) seg) = [None].
Proof.
  intros run.
  destruct (server_writes_own_segment_only (Msg:=string) (CallOption:=unit)
              (backend:=Sample.backend) (NewFixedSegmentNamer "svc")
              Sample.serverCtx (Some "req") Sample.info Sample.failingHandler
              Sample.tracedStore _ _ _ (Some "partial") (Some Sample.notFound)
              _ eq_refl eq_refl)
    as (seg & Hseg & Hfresh & Hpre & Hpost & _ & _ & _ & _ & _ & Hclosed).
  subst seg. exists 1%nat.
  split_and!; [exact Hseg | reflexivity | exact (Hpost 0%nat (O_S 0))
              | exact Hclosed].
Defined.

Lemma trace_header_key_agreement_witness :
  let sctx := {| incomingMD := Some {[ "x-amzn-trace-id" := ["svc.ns.local:443"] ]};
                 outgoingKV := []; peerInfo := None; ctxSegment := None |} in
  headerParses
    (traceOf (Sample.server sctx (Some "req") Sample.info Sample.echoHandler
                Sample.store))
  = ["svc.ns.local:443"].
Proof.
  intros sctx.
  eapply (trace_header_key_agreement (Msg:=string) (CallOption:=unit)
            (backend:=Sample.backend)
            Ret Sample.tracedCtx "/pkg.Service/Get" (Some "req") None
            Sample.conn Sample.failingInvoker [] Sample.tracedStore
            (NewFixedSegmentNamer "svc") sctx _ (Some "req") Sample.info
            Sample.echoHandler Sample.store).
  - reflexivity.
  - reflexivity.
  - reflexivity.
Defined.

Lemma server_handler_panics_witness :
  let run := Sample.server Sample.serverCtx (Some "req") Sample.info
               Sample.panickingHandler Sample.store in
  exists seg,
    segmentsCreated (traceOf run) = [seg] /\
    outcomeOf run = Panic (OtherPanic "boom") /\
    statusWrites (traceOf run) = [] /\
    closeCalls (traceOf run) = [(seg, None)].
Proof.
  intros run.
  destruct (server_handler_panics (Msg:=string) (CallOption:=unit)
              (backend:=Sample.backend) (NewFixedSegmentNamer "svc")
              Sample.serverCtx (Some "req") Sample.info
              Sample.panickingHandler Sample.store _ _ _ (OtherPanic "boom")
              _ eq_refl eq_refl)
    as (seg & Hseg & Hout & Hstat & _ & Hclose).
  exists seg. split_and!; [exact Hseg | exact Hout | exact Hstat | exact Hclose].
Defined.
